(** * image_downloader: a shallow embedding and its verification

    The development follows [image_downloader.py]:
    - [safe_filename], [get_extension_from_url] and
      [download_image_stream] are translated from the Python source;
    - the library functions they call ([pathlib], [os.path], [re.sub],
      [urllib.parse] as of CPython 3.12, [requests], the file system)
      are modelled in the modules [PyStr], [PosixPath], [Re],
      [UrlParse], [OS] and [Requests];
    - the outside world (network answers, I/O faults) is an explicit
      oracle [Env]; the file system, the log of issued requests and the
      printed lines form the state [World] threaded through the code.

    Python strings are modelled as lists of characters, a character
    being one of the 256 code points of [ascii]. *)

From Stdlib Require Import ZArith Ascii String List Bool Lia.
From stdpp Require Import base option gmap strings list fin_maps.

Import ListNotations.
Open Scope Z_scope.
Open Scope list_scope.

(** A Python [str]. String literals are read through the coercion. *)
Abbreviation str := (list ascii).
Coercion list_ascii_of_string : string >-> list.

(** Python [bytes]. *)
Abbreviation bytes := (list Byte.byte).

(* ================================================================== *)
(** ** Python string primitives *)
(* ================================================================== *)

Module PyStr.

Definition chr (n : nat) : ascii := ascii_of_nat n.
Definition ord (c : ascii) : nat := nat_of_ascii c.

Definition between (lo hi : nat) (c : ascii) : bool :=
  (Nat.leb lo (ord c) && Nat.leb (ord c) hi)%bool.

Definition is_upper (c : ascii) : bool := between 65 90 c.
Definition is_lower (c : ascii) : bool := between 97 122 c.
Definition is_digit (c : ascii) : bool := between 48 57 c.
Definition is_ascii_alpha (c : ascii) : bool := (is_upper c || is_lower c)%bool.

(** [str.lower] on one code point below 256: A-Z, and the Latin-1
    capitals U+00C0..U+00DE except the multiplication sign U+00D7. *)
Definition lower_char (c : ascii) : ascii :=
  if (is_upper c || (between 192 222 c && negb (Nat.eqb (ord c) 215)))%bool
  then chr (ord c + 32) else c.

(** [s.lower()] *)
Definition lower (s : str) : str := map lower_char s.

(** [s.startswith(p)] *)
Fixpoint startswith (p s : str) : bool :=
  match p, s with
  | [], _ => true
  | _ :: _, [] => false
  | a :: p', b :: s' => (Ascii.eqb a b && startswith p' s')%bool
  end.

(** [s.endswith(c)] for a one-character [c]. *)
Fixpoint endswith_char (c : ascii) (s : str) : bool :=
  match s with
  | [] => false
  | [x] => Ascii.eqb x c
  | _ :: s' => endswith_char c s'
  end.

(** [c in s] *)
Definition contains (c : ascii) (s : str) : bool := existsb (Ascii.eqb c) s.

(** [s.find(c)]: the lowest index of [c], or -1. *)
Fixpoint find_from (c : ascii) (s : str) (i : Z) : Z :=
  match s with
  | [] => -1
  | x :: s' => if Ascii.eqb x c then i else find_from c s' (i + 1)
  end.
Definition find (c : ascii) (s : str) : Z := find_from c s 0.

(** [s.rfind(c)]: the highest index of [c], or -1. *)
Fixpoint rfind_from (c : ascii) (s : str) (i : Z) (acc : Z) : Z :=
  match s with
  | [] => acc
  | x :: s' => rfind_from c s' (i + 1) (if Ascii.eqb x c then i else acc)
  end.
Definition rfind (c : ascii) (s : str) : Z := rfind_from c s 0 (-1).

(** Slices [s[:i]], [s[i:]] and [s[i:j]] for non-negative indices. *)
Definition upto (i : Z) (s : str) : str := firstn (Z.to_nat i) s.
Definition from (i : Z) (s : str) : str := skipn (Z.to_nat i) s.
Definition slice (i j : Z) (s : str) : str := upto (j - i) (from i s).

(** [s.split(c)]: never empty; [cur] is the field being read. *)
Fixpoint split_acc (c : ascii) (s : str) (cur : str) : list str :=
  match s with
  | [] => [rev cur]
  | x :: s' =>
      if Ascii.eqb x c then rev cur :: split_acc c s' []
      else split_acc c s' (x :: cur)
  end.
Definition split (c : ascii) (s : str) : list str := split_acc c s [].

(** [xs[-1]] of a list of strings ([""] stands for the IndexError that
    cannot occur on the result of [split]). *)
Definition last_field (xs : list str) : str := List.last xs [].

(** [s.lstrip(chars)] with the characters given by a predicate. *)
Fixpoint lstrip (p : ascii -> bool) (s : str) : str :=
  match s with
  | [] => []
  | x :: s' => if p x then lstrip p s' else s
  end.

(** [s.replace(c, "")] *)
Definition remove_char (c : ascii) (s : str) : str :=
  List.filter (fun x => negb (Ascii.eqb x c)) s.

Definition str_eqb (a b : str) : bool := bool_decide (a = b).

End PyStr.

(* ================================================================== *)
(** ** [pathlib] and [os.path] on POSIX *)
(* ================================================================== *)

Module PosixPath.
Import PyStr.

Definition sep : ascii := "/"%char.
Definition extsep : ascii := "."%char.

(** [PurePosixPath(p).name]: the final component of the path. The
    parser splits on the separator and drops the empty and the ["."]
    components; the name is the last one left, or [""]. *)
Definition kept_component (x : str) : bool :=
  negb (str_eqb x [] || str_eqb x [extsep])%bool.
Definition parts (p : str) : list str :=
  List.filter kept_component (split sep p).
Definition name (p : str) : str := List.last (parts p) [].

(** [posixpath.join(a, b)] *)
Definition join (a b : str) : str :=
  if startswith [sep] b then b
  else if (str_eqb a [] || endswith_char sep a)%bool then a ++ b
  else a ++ [sep] ++ b.

(** [posixpath.splitext(p)], after [genericpath._splitext]: the last
    dot of the last component starts the extension, unless only dots
    precede it in that component. *)
Definition splitext (p : str) : str * str :=
  let sepIndex := rfind sep p in
  let dotIndex := rfind extsep p in
  if (sepIndex <? dotIndex)
     && existsb (fun c => negb (Ascii.eqb c extsep))
                (slice (sepIndex + 1) dotIndex p)
  then (upto dotIndex p, from dotIndex p)
  else (p, []).

End PosixPath.

(* ================================================================== *)
(** ** [re.sub] with a character class *)
(* ================================================================== *)

Module Re.
Import PyStr.

(** The class [[A-Za-z0-9._-]]. *)
Definition in_safe_class (c : ascii) : bool :=
  (is_upper c || is_lower c || is_digit c
   || Ascii.eqb c "."%char || Ascii.eqb c "_"%char || Ascii.eqb c "-"%char)%bool.

(** [re.sub(r'[^A-Za-z0-9._-]', '_', s)]: every character outside the
    class is a match of length one and is replaced. *)
Definition sub_unsafe (s : str) : str :=
  map (fun c => if in_safe_class c then c else "_"%char) s.

End Re.

(* ================================================================== *)
(** ** Exceptions and results *)
(* ================================================================== *)

(** The exception classes the program can meet. The four last ones are
    subclasses of [requests.RequestException]. *)
Inductive exn : Type :=
| ValueError (msg : str)
| AttributeError (msg : str)
| FileExistsError (msg : str)
| FileNotFoundError (msg : str)
| IsADirectoryError (msg : str)
| OSError (msg : str)
| HTTPError (status : Z)
| ConnectionError (msg : str)
| Timeout (msg : str)
| ChunkedEncodingError (msg : str).

(** [isinstance(e, requests.RequestException)] *)
Definition is_RequestException (e : exn) : bool :=
  match e with
  | HTTPError _ | ConnectionError _ | Timeout _ | ChunkedEncodingError _ => true
  | _ => false
  end.

(** [str(e)] *)
Definition exn_str (e : exn) : str :=
  match e with
  | ValueError m | AttributeError m | FileExistsError m | FileNotFoundError m
  | IsADirectoryError m | OSError m | ConnectionError m | Timeout m
  | ChunkedEncodingError m => m
  | HTTPError _ => "HTTP error status"
  end.

(** A call either returns a value or raises. *)
Inductive result (A : Type) : Type :=
| Ok (a : A)
| Raise (e : exn).
Arguments Ok {A} a.
Arguments Raise {A} e.

Definition bind {A B : Type} (r : result A) (k : A -> result B) : result B :=
  match r with
  | Ok a => k a
  | Raise e => Raise e
  end.

Notation "x <- r ;; k" := (bind r (fun x => k))
  (at level 100, r at next level, right associativity).

(* ================================================================== *)
(** ** [urllib.parse] *)
(* ================================================================== *)

Module UrlParse.
Import PyStr.

(** The characters stripped from the front of a URL (C0 controls and
    space) and those removed everywhere (tab, CR, LF). *)
Definition c0_control_or_space (c : ascii) : bool := Nat.leb (ord c) 32.
Definition unsafe_bytes : list ascii := [chr 9; chr 13; chr 10].

Definition scheme_char (c : ascii) : bool :=
  (is_ascii_alpha c || is_digit c || contains c "+-.")%bool.

Definition uses_params : list str :=
  [ "" : str; "ftp" : str; "hdl" : str; "prospero" : str; "http" : str;
    "imap" : str; "https" : str; "shttp" : str; "rtsp" : str; "rtsps" : str;
    "rtspu" : str; "sip" : str; "sips" : str; "mms" : str; "sftp" : str;
    "tel" : str ].

(** [s.split(c, 1)[0]]: the text before the first [c]. *)
Definition before_first (c : ascii) (s : str) : str :=
  let i := find c s in if i <? 0 then s else upto i s.

(** [s.partition(c)[2]]: the text after the first [c], or [""]. *)
Definition after_first (c : ascii) (s : str) : str :=
  let i := find c s in if i <? 0 then [] else from (i + 1) s.

Definition netloc_delim (c : ascii) : bool := contains c "/?#".

(** [_splitnetloc(url, 2)]: the netloc runs from index 2 to the first
    of [/], [?], [#]. *)
Fixpoint span_netloc (s : str) : str * str :=
  match s with
  | [] => ([], [])
  | x :: s' =>
      if netloc_delim x then ([], s)
      else let '(n, r) := span_netloc s' in (x :: n, r)
  end.
Definition splitnetloc (url : str) : str * str := span_netloc (from 2 url).

(** [_splitparams(url)[0]]: the path without the parameters of its
    last segment. *)
Definition strip_params (url : str) : str :=
  let start := if contains "/"%char url then rfind "/"%char url else 0 in
  let i := find ";"%char (from start url) in
  if i <? 0 then url else upto (start + i) url.

Section Parse.

(** The validation of a bracketed host literal ([ipaddress], since
    Python 3.11.4; constantly [true] before) is left abstract. *)
Variable bracketed_host_ok : str -> bool.

(** [urlsplit(url)]: scheme, netloc and path; query and fragment are cut
    off the path. *)
Definition urlsplit (url : str) : result (str * str * str) :=
  let url := lstrip c0_control_or_space url in
  let url := fold_left (fun u b => remove_char b u) unsafe_bytes url in
  let i := find ":"%char url in
  let '(scheme, url) :=
    if ((0 <? i)
        && match url with c :: _ => is_ascii_alpha c | [] => false end
        && forallb scheme_char (upto i url))%bool
    then (lower (upto i url), from (i + 1) url)
    else ([], url) in
  netloc_url <-
    (if startswith "//" url then
       let '(netloc, rest) := splitnetloc url in
       let lb := contains "["%char netloc in
       let rb := contains "]"%char netloc in
       if ((lb && negb rb) || (rb && negb lb))%bool
       then Raise (ValueError "Invalid IPv6 URL")
       else if (lb && rb
                && negb (bracketed_host_ok
                           (before_first "]"%char (after_first "["%char netloc))))%bool
       then Raise (ValueError "Invalid bracketed host")
       else Ok (netloc, rest)
     else Ok ([], url)) ;;
  let '(netloc, url) := netloc_url in
  let url := before_first "#"%char url in
  let url := before_first "?"%char url in
  Ok (scheme, netloc, url).

(** [urlparse(url).path] *)
Definition urlparse_path (url : str) : result str :=
  parsed <- urlsplit url ;;
  let '(scheme, _, path) := parsed in
  if (existsb (str_eqb scheme) uses_params && contains ";"%char path)%bool
  then Ok (strip_params path)
  else Ok path.

End Parse.

End UrlParse.

(* ================================================================== *)
(** ** The program: name sanitizer and extension resolver *)
(* ================================================================== *)

(** [safe_filename(name)] *)
Definition safe_filename (name : str) : str :=
  let name := PosixPath.name name in
  Re.sub_unsafe name.

(** [get_extension_from_url(image_url)] *)
Definition get_extension_from_url (bracketed_host_ok : str -> bool)
    (image_url : str) : result str :=
  path <- UrlParse.urlparse_path bracketed_host_ok image_url ;;
  let '(_, ext) := PosixPath.splitext path in
  Ok (PyStr.lower ext).

(* ================================================================== *)
(** ** The world: file system, network, console *)
(* ================================================================== *)

(** A file-system entry. Paths are compared as strings (no
    normalisation, no hierarchy). *)
Inductive node : Type :=
| File (content : bytes)
| Dir.

(** The keyword arguments of one [requests.get] call; [None] is an
    argument the caller did not supply. What the library adds to a
    request on its own is not part of the record. *)
Record Request : Type := mkRequest {
  req_url : str;
  req_headers : option (list (str * str));
  req_stream : bool;
  req_timeout : Z
}.

Record World : Type := mkWorld {
  fs : gmap str node;
  sent : list Request;
  printed : list str
}.

Definition set_fs (w : World) (m : gmap str node) : World :=
  mkWorld m (sent w) (printed w).

(** The response object [r]: its status, its [content-type] header, and
    what [r.iter_content] yields, possibly ending in a fault. *)
Record Response : Type := mkResponse {
  status_code : Z;
  content_type_header : option str;
  chunks : list bytes;
  stream_fault : option exn
}.

(** What the environment decides during one invocation: the answer of
    the network and the faults of the file system. *)
Record Env : Type := mkEnv {
  get_outcome : result Response;
  makedirs_fault : option exn;
  open_fault : option exn;
  write_fault_at : option nat;
  remove_fault : option exn
}.

Module OS.

(** [os.path.exists(p)] *)
Definition path_exists (w : World) (p : str) : bool :=
  bool_decide (is_Some (fs w !! p)).

(** [os.makedirs(folder, exist_ok=True)] *)
Definition makedirs (env : Env) (folder : str) (w : World) : result unit * World :=
  match fs w !! folder with
  | Some Dir => (Ok tt, w)
  | Some (File _) => (Raise (FileExistsError folder), w)
  | None =>
      if PyStr.str_eqb folder [] then (Raise (FileNotFoundError folder), w)
      else match makedirs_fault env with
           | Some e => (Raise e, w)
           | None => (Ok tt, set_fs w (<[folder := Dir]> (fs w)))
           end
  end.

(** [open(p, 'wb')]: creates the file or truncates it. The handle is
    the path. *)
Definition open_wb (env : Env) (p : str) (w : World) : result str * World :=
  match fs w !! p with
  | Some Dir => (Raise (IsADirectoryError p), w)
  | _ =>
      match open_fault env with
      | Some e => (Raise e, w)
      | None => (Ok p, set_fs w (<[p := File []]> (fs w)))
      end
  end.

Definition append_bytes (b : bytes) (n : node) : node :=
  match n with
  | File c => File (c ++ b)
  | Dir => Dir
  end.

(** [f.write(b)], the [k]-th write of the invocation. *)
Definition write (env : Env) (f : str) (b : bytes) (k : nat) (w : World)
  : result unit * World :=
  if bool_decide (write_fault_at env = Some k)
  then (Raise (OSError "write failed"), w)
  else (Ok tt, set_fs w (alter (append_bytes b) f (fs w))).

(** [os.remove(p)] *)
Definition remove (env : Env) (p : str) (w : World) : result unit * World :=
  match fs w !! p with
  | Some (File _) =>
      match remove_fault env with
      | Some e => (Raise e, w)
      | None => (Ok tt, set_fs w (delete p (fs w)))
      end
  | Some Dir => (Raise (IsADirectoryError p), w)
  | None => (Raise (FileNotFoundError p), w)
  end.

(** [print(line)] *)
Definition print (line : str) (w : World) : World :=
  mkWorld (fs w) (sent w) (printed w ++ [line]).

End OS.

Module Requests.

(** [requests.get(url, headers=..., stream=..., timeout=...)] *)
Definition get (env : Env) (url : str) (headers : option (list (str * str)))
    (stream : bool) (timeout : Z) (w : World) : result Response * World :=
  (get_outcome env,
   mkWorld (fs w) (sent w ++ [mkRequest url headers stream timeout]) (printed w)).

(** [r.raise_for_status()] *)
Definition raise_for_status (r : Response) : result unit :=
  if ((400 <=? status_code r) && (status_code r <? 600))%bool
  then Raise (HTTPError (status_code r))
  else Ok tt.

(** [r.headers.get('content-type')] *)
Definition headers_get_content_type (r : Response) : option str :=
  content_type_header r.

End Requests.

(* ================================================================== *)
(** ** The program: the download operation *)
(* ================================================================== *)

(** Python's [x or y] on optional strings: [x] when it is truthy. *)
Definition py_or (x y : option str) : option str :=
  match x with
  | Some (_ :: _) => x
  | _ => y
  end.

(** [content_type.startswith('image/')]; on [None] the attribute lookup
    raises. *)
Definition startswith_image (content_type : option str) : result bool :=
  match content_type with
  | Some s => Ok (PyStr.startswith "image/" s)
  | None => Raise (AttributeError "'NoneType' object has no attribute 'startswith'")
  end.

(** [not ext and content_type.startswith('image/')], short-circuit. *)
Definition wants_guess (ext : str) (content_type : option str) : result bool :=
  match ext with
  | [] => startswith_image content_type
  | _ :: _ => Ok false
  end.

(** ['.' + content_type.split('/')[-1].lower()] *)
Definition guessed_extension (content_type : str) : str :=
  "." ++ PyStr.lower (PyStr.last_field (PyStr.split "/"%char content_type)).

Section Download.

Variable bracketed_host_ok : str -> bool.
Variable env : Env.

(** The loop [for chunk in r.iter_content(...): if chunk: f.write(chunk)]
    over the chunks received; [k] counts the writes done. *)
Fixpoint write_chunks (f : str) (cs : list bytes) (k : nat) (w : World)
  : result unit * World :=
  match cs with
  | [] => (Ok tt, w)
  | chunk :: cs' =>
      match chunk with
      | [] => write_chunks f cs' k w
      | _ :: _ =>
          match OS.write env f chunk k w with
          | (Raise e, w') => (Raise e, w')
          | (Ok _, w') => write_chunks f cs' (S k) w'
          end
      end
  end.

(** Lines 56-58: open the file, write the chunks; the iterator raises
    its fault once the chunks received are consumed. *)
Definition save_stream (r : Response) (image_path : str) (w : World)
  : result unit * World :=
  match OS.open_wb env image_path w with
  | (Raise e, w') => (Raise e, w')
  | (Ok f, w') =>
      match write_chunks f (chunks r) 0%nat w' with
      | (Raise e, w'') => (Raise e, w'')
      | (Ok _, w'') =>
          match stream_fault r with
          | Some e => (Raise e, w'')
          | None => (Ok tt, w'')
          end
      end
  end.

(** Lines 41-60, the body of the [try]. Besides the result it gives the
    value of the variable [image_path] when the body is left, which the
    handlers read. *)
Definition try_body (image_url : str) (timeout : Z) (folder safe_name ext : str)
    (image_path : str) (w : World) : result str * str * World :=
  let headers : list (str * str) :=
    [("User-Agent" : str, "python-requests/1.0" : str)] in
  match Requests.get env image_url None true timeout w with
  | (Raise e, w1) => (Raise e, image_path, w1)
  | (Ok r, w1) =>
      match Requests.raise_for_status r with
      | Raise e => (Raise e, image_path, w1)
      | Ok _ =>
          let content_type :=
            py_or (Requests.headers_get_content_type r)
                  (Requests.headers_get_content_type r) in
          match wants_guess ext content_type with
          | Raise e => (Raise e, image_path, w1)
          | Ok guess =>
              let image_path :=
                if guess then
                  let guessed := guessed_extension (default [] content_type) in
                  PosixPath.join folder (safe_name ++ guessed)
                else image_path in
              match save_stream r image_path w1 with
              | (Raise e, w2) => (Raise e, image_path, w2)
              | (Ok _, w2) => (Ok image_path, image_path, w2)
              end
          end
      end
  end.

(** The message both handlers print. *)
Definition failure_message (safe_name image_url : str) (e : exn) : str :=
  "Failed to download " ++ safe_name ++ " from " ++ image_url ++ ": " ++ exn_str e.

(** Lines 66-70 and 75-79: remove the file at [image_path] if one is
    there; a fault of the removal is dropped. *)
Definition remove_partial (image_path : str) (w : World) : World :=
  if OS.path_exists w image_path then
    match OS.remove env image_path w with
    | (Ok _, w') => w'
    | (Raise _, w') => w'
    end
  else w.

(** The body shared by the two [except] clauses. *)
Definition handler (safe_name image_url : str) (e : exn) (image_path : str)
    (w : World) : result (option str) * World :=
  let w := OS.print (failure_message safe_name image_url e) w in
  let w := remove_partial image_path w in
  (Ok None, w).

(** Lines 30-38: everything before the [try]. *)
Definition prelude (image_url name folder : str) (w : World)
  : result (str * str * str) * World :=
  match get_extension_from_url bracketed_host_ok image_url with
  | Raise e => (Raise e, w)
  | Ok ext =>
      let safe_name := safe_filename name in
      match OS.makedirs env folder w with
      | (Raise e, w1) => (Raise e, w1)
      | (Ok _, w1) =>
          let image_path := PosixPath.join folder (safe_name ++ "." ++ ext) in
          if OS.path_exists w1 image_path
          then (Raise (FileExistsError ("File " ++ safe_name ++ " already exists")), w1)
          else (Ok (ext, safe_name, image_path), w1)
      end
  end.

(** [download_image_stream(image_url, name, folder, timeout)] *)
Definition download_image_stream (image_url name folder : str) (timeout : Z)
    (w : World) : result (option str) * World :=
  match prelude image_url name folder w with
  | (Raise e, w1) => (Raise e, w1)
  | (Ok (ext, safe_name, image_path), w1) =>
      match try_body image_url timeout folder safe_name ext image_path w1 with
      | (Ok p, _, w2) => (Ok (Some p), w2)
      | (Raise e, image_path', w2) =>
          if is_RequestException e
          then handler safe_name image_url e image_path' w2
          else handler safe_name image_url e image_path' w2
      end
  end.

End Download.

(** The default arguments of [download_image_stream]. *)
Definition default_folder : str := "images".
Definition default_timeout : Z := 10.

(* ================================================================== *)
(** ** The program: the entry point *)
(* ================================================================== *)

(** [f'{saved_path}'] for the value returned by the download. *)
Definition format_saved_path (saved_path : option str) : str :=
  match saved_path with
  | Some p => p
  | None => "None"
  end.

(** Lines 83-94, the [__main__] block. The two lines that [input]
    reads are the arguments; its prompts are written to the console
    like printed lines. *)
Definition main (bracketed_host_ok : str -> bool) (env : Env)
    (image_url image_name : str) (w : World) : World :=
  let w := OS.print "Enter image URL: " w in
  let w := OS.print "Enter image name: " w in
  let w := OS.print "Downloading image..." w in
  match download_image_stream bracketed_host_ok env image_url image_name
          default_folder default_timeout w with
  | (Ok saved_path, w') =>
      OS.print ("Image saved at: " ++ format_saved_path saved_path) w'
  | (Raise e, w') => OS.print ("Error: " ++ exn_str e) w'
  end.

(** What the console shows before the download starts. *)
Definition banner : list str :=
  [ "Enter image URL: " : str; "Enter image name: " : str;
    "Downloading image..." : str ].

(** The world in which [main] calls the download. *)
Definition announce (w : World) : World :=
  mkWorld (fs w) (sent w) (printed w ++ banner).

(* ================================================================== *)
(** ** Specification-side definitions *)
(* ================================================================== *)

(** A relative path leaves the directory it is joined to when one of its
    components is the parent reference. *)
Definition escapes_directory (p : str) : bool :=
  existsb (PyStr.str_eqb "..") (PyStr.split "/"%char p).

(** The sanitizer's contract as the specification words it. *)
Definition sanitizer_contract (s : str) : Prop :=
  Forall (fun c => Re.in_safe_class c = true) (safe_filename s)
  /\ ~ In "/"%char (safe_filename s)
  /\ escapes_directory (safe_filename s) = false.

(** The text after the last [c] of [s] (all of [s] without a [c]). *)
Definition after_last (c : ascii) (s : str) : str :=
  PyStr.last_field (PyStr.split c s).

(** The final segment of a URL path. *)
Definition final_segment (path : str) : str := after_last "/"%char path.

(** The extension resolver as the specification words it: the text after
    the final dot of the final segment, lowercased and prefixed with a
    dot; empty when the segment has no dot. *)
Definition spec_extension_of_path (path : str) : str :=
  let seg := final_segment path in
  if PyStr.contains "."%char seg
  then "." ++ PyStr.lower (after_last "."%char seg)
  else [].

Definition spec_get_extension (bracketed_host_ok : str -> bool) (url : str)
  : result str :=
  path <- UrlParse.urlparse_path bracketed_host_ok url ;;
  Ok (spec_extension_of_path path).

(** The same, with the leading dots of the segment counted as part of
    the name. *)
Definition is_dot (c : ascii) : bool := Ascii.eqb c "."%char.

Definition dotted_extension_of_path (path : str) : str :=
  let seg := PyStr.lstrip is_dot (final_segment path) in
  if PyStr.contains "."%char seg
  then "." ++ PyStr.lower (after_last "."%char seg)
  else [].

(** The extension before lowercasing. *)
Definition raw_extension (p : str) : str :=
  let seg := PyStr.lstrip is_dot (final_segment p) in
  if PyStr.contains "."%char seg then "."%char :: after_last "."%char seg else [].

(** A host validation that accepts every bracketed literal. *)
Definition any_host (_ : str) : bool := true.

(** The path held by [image_path] when the body is left after the
    content type was read. *)
Definition resolved_path (folder safe ip : str) (r : Response) (guess : bool) : str :=
  if guess
  then PosixPath.join folder
         (safe ++ guessed_extension (default [] (content_type_header r)))
  else ip.

(** The claim that every failure is reported rather than raised. *)
Definition reports_outcome (x : result (option str) * World) : Prop :=
  exists v, fst x = Ok v.

(* ================================================================== *)
(** ** Scenarios *)
(* ================================================================== *)

Module Scenario.

Definition pic_jpg_url : str := "http://x.com/a/pic.jpg".
Definition pic_url : str := "http://x.com/a/pic".

(** A world with nothing on disk, and one holding the destination
    directory with some files. *)
Definition empty_world : World := mkWorld ∅ [] [].

Definition world_with (files : list (str * bytes)) : World :=
  mkWorld (foldr (fun '(p, c) m => <[p := File c]> m)
                 {[ default_folder := Dir ]} files) [] [].

Definition old_bytes : bytes := [Byte.xff; Byte.xfe].

Definition taken_world : World := world_with [("images/pic..jpg" : str, old_bytes)].
Definition png_taken_world : World := world_with [("images/pic.png" : str, old_bytes)].

(** A body of three bytes in three chunks, the second one empty. *)
Definition body : list bytes := [[Byte.x01; Byte.x02]; []; [Byte.x03]].

Definition png_response : Response :=
  mkResponse 200 (Some ("image/png" : str)) body None.
Definition untyped_response : Response := mkResponse 200 None body None.
Definition broken_png_response : Response :=
  mkResponse 200 (Some ("image/png" : str)) body
             (Some (ChunkedEncodingError "Connection broken")).

(** The network answers [r]; nothing else goes wrong. *)
Definition quiet (r : Response) : Env := mkEnv (Ok r) None None None None.

(** The second write fails and the partial file cannot be removed. *)
Definition stuck : Env :=
  mkEnv (Ok png_response) None None (Some 1%nat)
        (Some (OSError "Permission denied")).

(** [download_image_stream(url, name)] with the default arguments. *)
Definition run (env : Env) (url name : str) (w : World)
  : result (option str) * World :=
  download_image_stream any_host env url name default_folder default_timeout w.

End Scenario.

(* ================================================================== *)
(** ** Lemmas on strings *)
(* ================================================================== *)

Section StringLemmas.
Import PyStr.

Lemma ascii_eqb_true (a b : ascii) : Ascii.eqb a b = true <-> a = b.
Proof. apply Ascii.eqb_eq. Qed.

Lemma ascii_eqb_false (a b : ascii) : Ascii.eqb a b = false <-> a <> b.
Proof. apply Ascii.eqb_neq. Qed.

Lemma contains_In (c : ascii) (s : str) : contains c s = true <-> In c s.
Proof.
  unfold contains. rewrite existsb_exists. split.
  - intros (x & Hx & E). apply ascii_eqb_true in E. now subst.
  - intros H. exists c. split; [assumption | apply Ascii.eqb_refl].
Qed.

Lemma contains_not_In (c : ascii) (s : str) : contains c s = false <-> ~ In c s.
Proof.
  rewrite <- contains_In. destruct (contains c s); split; congruence.
Qed.

(** The last occurrence of a character splits the string. *)
Lemma last_occurrence (c : ascii) (s : str) :
  In c s -> exists a b, s = a ++ c :: b /\ ~ In c b.
Proof.
  induction s as [|x s IH]; intros H; [destruct H|].
  destruct (in_dec ascii_dec c s) as [Hin|Hout].
  - destruct (IH Hin) as (a & b & -> & Hb). exists (x :: a), b. now split.
  - destruct H as [->|H]; [|contradiction]. exists [], s. now split.
Qed.

Lemma split_acc_nonempty (c : ascii) (s cur : str) : split_acc c s cur <> [].
Proof.
  revert cur. induction s as [|x s IH]; intros cur; simpl; [discriminate|].
  destruct (Ascii.eqb x c); [discriminate | apply IH].
Qed.

Lemma split_acc_without (c : ascii) (s cur : str) :
  ~ In c s -> split_acc c s cur = [rev cur ++ s].
Proof.
  revert cur. induction s as [|x s IH]; intros cur H; simpl.
  - now rewrite app_nil_r.
  - destruct (Ascii.eqb x c) eqn:E.
    + apply ascii_eqb_true in E. subst. exfalso. apply H. now left.
    + rewrite IH by (intros ?; apply H; now right).
      simpl. now rewrite <- app_assoc.
Qed.

Lemma split_without (c : ascii) (s : str) : ~ In c s -> split c s = [s].
Proof. intros H. unfold split. now rewrite split_acc_without. Qed.

Lemma last_cons_nonempty {A : Type} (x d : A) (l : list A) :
  l <> [] -> List.last (x :: l) d = List.last l d.
Proof. destruct l; [congruence | reflexivity]. Qed.

Lemma last_split_acc (c : ascii) (a b cur : str) :
  ~ In c b -> List.last (split_acc c (a ++ c :: b) cur) [] = b.
Proof.
  revert cur. induction a as [|x a IH]; intros cur Hb; simpl.
  - rewrite Ascii.eqb_refl, split_acc_without by assumption. reflexivity.
  - destruct (Ascii.eqb x c).
    + rewrite last_cons_nonempty by apply split_acc_nonempty. now apply IH.
    + now apply IH.
Qed.

Lemma after_last_without (c : ascii) (s : str) : ~ In c s -> after_last c s = s.
Proof. intros H. unfold after_last, last_field. now rewrite split_without. Qed.

Lemma after_last_app (c : ascii) (a b : str) :
  ~ In c b -> after_last c (a ++ c :: b) = b.
Proof. intros H. unfold after_last, last_field, split. now apply last_split_acc. Qed.

Lemma after_last_no_sep (c : ascii) (s : str) : ~ In c (after_last c s).
Proof.
  destruct (in_dec ascii_dec c s) as [Hin|Hout].
  - destruct (last_occurrence c s Hin) as (a & b & -> & Hb).
    now rewrite after_last_app.
  - now rewrite after_last_without.
Qed.

Lemma rfind_from_without (c : ascii) (s : str) (i acc : Z) :
  ~ In c s -> rfind_from c s i acc = acc.
Proof.
  revert i acc. induction s as [|x s IH]; intros i acc H; simpl; [reflexivity|].
  destruct (Ascii.eqb x c) eqn:E.
  - apply ascii_eqb_true in E. subst. exfalso. apply H. now left.
  - apply IH. intros ?. apply H. now right.
Qed.

Lemma rfind_from_app (c : ascii) (a b : str) (i acc : Z) :
  ~ In c b -> rfind_from c (a ++ c :: b) i acc = i + Z.of_nat (length a).
Proof.
  revert i acc. induction a as [|x a IH]; intros i acc Hb.
  - simpl. rewrite Ascii.eqb_refl, rfind_from_without by assumption. lia.
  - cbn [app rfind_from length]. rewrite IH by assumption. lia.
Qed.

Lemma rfind_without (c : ascii) (s : str) : ~ In c s -> rfind c s = -1.
Proof. apply rfind_from_without. Qed.

Lemma rfind_app (c : ascii) (a b : str) :
  ~ In c b -> rfind c (a ++ c :: b) = Z.of_nat (length a).
Proof. intros H. unfold rfind. now rewrite rfind_from_app. Qed.

Lemma upto_app (a b : str) : upto (Z.of_nat (length a)) (a ++ b) = a.
Proof.
  unfold upto. rewrite Nat2Z.id. rewrite firstn_app, Nat.sub_diag, firstn_all.
  simpl. apply app_nil_r.
Qed.

Lemma from_app (a b : str) : from (Z.of_nat (length a)) (a ++ b) = b.
Proof.
  unfold from. rewrite Nat2Z.id. rewrite skipn_app, Nat.sub_diag, skipn_all.
  reflexivity.
Qed.

Lemma lstrip_dots_app (u s : str) :
  forallb is_dot u = true -> lstrip is_dot (u ++ s) = lstrip is_dot s.
Proof.
  induction u as [|x u IH]; intros H; simpl in *; [reflexivity|].
  apply andb_true_iff in H as [Hx Hu]. rewrite Hx. now apply IH.
Qed.

Lemma lstrip_dots_without (s : str) : ~ In "."%char s -> lstrip is_dot s = s.
Proof.
  destruct s as [|x s]; intros H; simpl; [reflexivity|].
  destruct (is_dot x) eqn:E; [|reflexivity].
  apply ascii_eqb_true in E. subst. exfalso. apply H. now left.
Qed.

(** Stripping dots stops at the first other character. *)
Lemma lstrip_dots_split (u : str) :
  existsb (fun c => negb (Ascii.eqb c "."%char)) u = true ->
  exists x u', lstrip is_dot u = x :: u' /\ x <> "."%char
               /\ forall s, lstrip is_dot (u ++ s) = x :: u' ++ s.
Proof.
  induction u as [|y u IH]; intros H; simpl in *; [discriminate|].
  unfold is_dot at 1 3. destruct (Ascii.eqb y ".") eqn:E; simpl in H.
  - destruct (IH H) as (x & u' & H1 & H2 & H3). exists x, u'. auto.
  - exists y, u. split; [reflexivity|]. split; [now apply ascii_eqb_false|].
    intros s. reflexivity.
Qed.

Lemma all_dots_or_not (u : str) :
  existsb (fun c => negb (Ascii.eqb c "."%char)) u = false ->
  forallb is_dot u = true.
Proof.
  induction u as [|y u IH]; intros H; simpl in *; [reflexivity|].
  apply orb_false_iff in H as [H1 H2]. apply negb_false_iff in H1.
  unfold is_dot at 1. rewrite H1. now apply IH.
Qed.

End StringLemmas.

(* ================================================================== *)
(** ** The extension of a path *)
(* ================================================================== *)

Section Splitext.
Import PyStr.

(** A path is a prefix, empty or ending in the separator, followed by
    its final segment. *)
Lemma path_decomposition (p : str) :
  exists pre seg,
    p = pre ++ seg /\ ~ In "/"%char seg /\ final_segment p = seg
    /\ rfind "/"%char p + 1 = Z.of_nat (length pre)
    /\ (pre = [] \/ exists a, pre = a ++ ["/"%char]).
Proof.
  destruct (in_dec ascii_dec "/"%char p) as [Hin|Hout].
  - destruct (last_occurrence _ _ Hin) as (a & b & -> & Hb).
    exists (a ++ ["/"%char]), b. rewrite <- app_assoc. simpl.
    repeat split; try assumption.
    + unfold final_segment. now apply after_last_app.
    + rewrite rfind_app by assumption. rewrite length_app. simpl. lia.
    + right. now exists a.
  - exists [], p. repeat split; try assumption.
    + unfold final_segment. now apply after_last_without.
    + now rewrite rfind_without.
    + now left.
Qed.

Lemma rfind_dot_before_segment (pre seg : str) :
  ~ In "."%char seg -> (pre = [] \/ exists a, pre = a ++ ["/"%char]) ->
  rfind "."%char (pre ++ seg) < Z.of_nat (length pre).
Proof.
  intros Hseg Hpre.
  destruct (in_dec ascii_dec "."%char pre) as [Hin|Hout].
  - destruct Hpre as [->|(a & ->)]; [destruct Hin|].
    apply in_app_or in Hin as [Hin|[E|[]]]; [|discriminate].
    destruct (last_occurrence _ _ Hin) as (a1 & a2 & -> & Ha2).
    rewrite <- !app_assoc. simpl. rewrite rfind_app.
    + rewrite !length_app. simpl. lia.
    + intros H. apply in_app_or in H as [H|H]; [contradiction|].
      destruct H as [E|H]; [discriminate | contradiction].
  - rewrite rfind_without; [lia|].
    intros H. apply in_app_or in H as [H|H]; contradiction.
Qed.

Lemma splitext_extension (p : str) : snd (PosixPath.splitext p) = raw_extension p.
Proof.
  destruct (path_decomposition p) as (pre & seg & -> & Hseg & Hfs & Hsep & Hpre).
  unfold PosixPath.splitext, raw_extension, PosixPath.sep, PosixPath.extsep.
  rewrite Hfs.
  destruct (in_dec ascii_dec "."%char seg) as [Hin|Hout].
  - destruct (last_occurrence _ _ Hin) as (u & v & -> & Hv).
    assert (Hdot : rfind "."%char (pre ++ u ++ "."%char :: v)
                   = Z.of_nat (length pre) + Z.of_nat (length u)).
    { rewrite app_assoc, rfind_app by assumption. rewrite length_app. lia. }
    rewrite Hdot, Hsep.
    assert (Hlt : (rfind "/"%char (pre ++ u ++ "."%char :: v)
                   <? Z.of_nat (length pre) + Z.of_nat (length u)) = true)
      by (apply Z.ltb_lt; lia).
    rewrite Hlt. cbn [andb].
    assert (Hslice : slice (Z.of_nat (length pre))
                       (Z.of_nat (length pre) + Z.of_nat (length u))
                       (pre ++ u ++ "."%char :: v) = u).
    { unfold slice. rewrite from_app.
      replace (Z.of_nat (length pre) + Z.of_nat (length u) - Z.of_nat (length pre))
        with (Z.of_nat (length u)) by lia.
      apply upto_app. }
    rewrite Hslice.
    destruct (existsb (fun c => negb (Ascii.eqb c ".")) u) eqn:Hu.
    + destruct (lstrip_dots_split u Hu) as (x & u' & _ & _ & Hs).
      rewrite Hs.
      assert (Hc : contains "."%char (x :: u' ++ "."%char :: v) = true).
      { apply contains_In. right. apply in_or_app. right. now left. }
      rewrite Hc. cbn [snd].
      replace (Z.of_nat (length pre) + Z.of_nat (length u))
        with (Z.of_nat (length (pre ++ u))) by (rewrite length_app; lia).
      rewrite app_assoc, from_app.
      change (x :: u' ++ "."%char :: v) with ((x :: u') ++ "."%char :: v).
      now rewrite after_last_app.
    + apply all_dots_or_not in Hu.
      rewrite lstrip_dots_app by assumption. simpl lstrip.
      rewrite lstrip_dots_without by assumption.
      assert (Hc : contains "."%char v = false) by now apply contains_not_In.
      now rewrite Hc.
  - pose proof (rfind_dot_before_segment pre seg Hout Hpre) as Hlt.
    assert (Hge : (rfind "/"%char (pre ++ seg) <? rfind "."%char (pre ++ seg)) = false)
      by (apply Z.ltb_ge; lia).
    rewrite Hge. cbn [andb snd].
    rewrite lstrip_dots_without by assumption.
    assert (Hc : contains "."%char seg = false) by now apply contains_not_In.
    now rewrite Hc.
Qed.

Lemma lower_raw_extension (p : str) :
  lower (raw_extension p) = dotted_extension_of_path p.
Proof.
  unfold raw_extension, dotted_extension_of_path.
  destruct (contains "."%char (lstrip is_dot (final_segment p))); reflexivity.
Qed.

(** The resolved extension is empty or starts with a dot. *)
Lemma dotted_extension_shape (p : str) :
  dotted_extension_of_path p = [] \/
  exists x, dotted_extension_of_path p = "."%char :: x.
Proof.
  unfold dotted_extension_of_path.
  destruct (contains "."%char (lstrip is_dot (final_segment p)));
    [right; eexists; reflexivity | now left].
Qed.

End Splitext.

(* ================================================================== *)
(** ** The name sanitizer *)
(* ================================================================== *)

Section Sanitizer.
Import PyStr.

Lemma sub_unsafe_safe (s : str) :
  Forall (fun c => Re.in_safe_class c = true) (Re.sub_unsafe s).
Proof.
  unfold Re.sub_unsafe. apply List.Forall_map, List.Forall_forall. intros c _.
  destruct (Re.in_safe_class c) eqn:E; [assumption | reflexivity].
Qed.

Lemma safe_class_no_separator (s : str) :
  Forall (fun c => Re.in_safe_class c = true) s -> ~ In "/"%char s.
Proof.
  intros H Hin. rewrite List.Forall_forall in H. apply H in Hin. discriminate.
Qed.

(** Only a dot is rewritten to a dot. *)
Lemma sub_unsafe_dot (c : ascii) :
  (if Re.in_safe_class c then c else "_"%char) = "."%char -> c = "."%char.
Proof. destruct (Re.in_safe_class c); [tauto | discriminate]. Qed.

Lemma sub_unsafe_dotdot (s : str) : Re.sub_unsafe s = ".." <-> s = "..".
Proof.
  split; [|intros ->; reflexivity].
  destruct s as [|a [|b [|c s]]]; try discriminate.
  cbn. intros H. injection H as Ha Hb.
  apply sub_unsafe_dot in Ha, Hb. now subst.
Qed.

Lemma escapes_single_component (s : str) :
  ~ In "/"%char s -> (escapes_directory s = true <-> s = "..").
Proof.
  intros H. unfold escapes_directory. rewrite split_without by assumption.
  cbn [existsb]. rewrite orb_false_r. unfold str_eqb.
  rewrite bool_decide_eq_true. split; congruence.
Qed.

End Sanitizer.

(** C7, as stated, fails: the sanitized form of the name [".."] is the
    parent reference [".."] itself, so the contract "no separator and
    no escaping traversal" does not hold of it. *)
Lemma safe_filename_keeps_parent_reference : ~ sanitizer_contract "..".
Proof.
  intros (_ & _ & H). vm_compute in H. discriminate.
Qed.

(** C7 (amended): for every input, [safe_filename] returns a string
    whose characters all lie in [A-Za-z0-9._-], hence without a path
    separator; the empty input gives the empty name and
    ["../../etc/passwd"] gives ["passwd"]. The result is a parent
    reference exactly when it is [".."], which happens exactly when the
    final component of the input is [".."]. *)
Theorem safe_filename_sanitized (s : str) :
  Forall (fun c => Re.in_safe_class c = true) (safe_filename s)
  /\ ~ In "/"%char (safe_filename s)
  /\ (escapes_directory (safe_filename s) = true <-> PosixPath.name s = "..")
  /\ safe_filename "" = ""
  /\ safe_filename "../../etc/passwd" = "passwd".
Proof.
  assert (Hsafe : Forall (fun c => Re.in_safe_class c = true) (safe_filename s))
    by apply sub_unsafe_safe.
  pose proof (safe_class_no_separator _ Hsafe) as Hsep.
  repeat split; try assumption.
  - intros H. apply escapes_single_component in H; [|assumption].
    now apply sub_unsafe_dotdot.
  - intros H. apply escapes_single_component; [assumption|].
    now apply sub_unsafe_dotdot.
Qed.

(* ================================================================== *)
(** ** The extension resolver *)
(* ================================================================== *)

(** The extension resolver in terms of the final segment. *)
Lemma get_extension_resolved (host_ok : str -> bool) (url : str) :
  get_extension_from_url host_ok url
  = (path <- UrlParse.urlparse_path host_ok url ;;
     Ok (dotted_extension_of_path path)).
Proof.
  unfold get_extension_from_url.
  destruct (UrlParse.urlparse_path host_ok url) as [path|e]; [|reflexivity].
  cbn [bind]. pose proof (splitext_extension path) as H.
  destruct (PosixPath.splitext path) as [root ext]. cbn [snd] in H. subst ext.
  now rewrite lower_raw_extension.
Qed.

(** Whatever the URL, the extension is empty or starts with a dot. *)
Lemma get_extension_shape (host_ok : str -> bool) (url ext : str) :
  get_extension_from_url host_ok url = Ok ext ->
  ext = [] \/ exists x, ext = "."%char :: x.
Proof.
  rewrite get_extension_resolved.
  destruct (UrlParse.urlparse_path host_ok url) as [path|e]; [|discriminate].
  cbn [bind]. intros H. injection H as <-. apply dotted_extension_shape.
Qed.

(** C8, as stated, fails: on a final segment that starts with its only
    dot the code returns the empty extension, where the specification's
    wording gives the text after the dot. *)
Lemma get_extension_hidden_segment :
  get_extension_from_url any_host "http://x.com/a/.JPG" = Ok ("" : str)
  /\ spec_get_extension any_host "http://x.com/a/.JPG" = Ok (".jpg" : str)
  /\ get_extension_from_url any_host "http://x.com/a/.JPG"
     <> spec_get_extension any_host "http://x.com/a/.JPG".
Proof. repeat split. discriminate. Qed.

(** C8 (amended): [get_extension_from_url] is a function of the URL text
    alone. When the URL parses, it returns the lowercased text from the
    final dot of the final path segment on, provided that segment has a
    dot after its leading dots; otherwise the empty string. It raises
    when the parse raises. It maps [http://x.com/a/pic.JPG?x=1] to
    [.jpg] and [http://x.com/a/pic] to the empty string. *)
Theorem get_extension_from_url_dotted (host_ok : str -> bool) (url : str) :
  get_extension_from_url host_ok url
  = (path <- UrlParse.urlparse_path host_ok url ;;
     Ok (dotted_extension_of_path path))
  /\ get_extension_from_url host_ok "http://x.com/a/pic.JPG?x=1" = Ok (".jpg" : str)
  /\ get_extension_from_url host_ok "http://x.com/a/pic" = Ok ("" : str).
Proof. repeat split. apply get_extension_resolved. Qed.

(* ================================================================== *)
(** ** The download operation *)
(* ================================================================== *)

Section DownloadFacts.

Variable host_ok : str -> bool.
Variable env : Env.

Lemma download_unfold (url name folder : str) (timeout : Z) (w : World) :
  download_image_stream host_ok env url name folder timeout w =
  match prelude host_ok env url name folder w with
  | (Raise e, w1) => (Raise e, w1)
  | (Ok (ext, safe_name, image_path), w1) =>
      match try_body env url timeout folder safe_name ext image_path w1 with
      | (Ok p, _, w2) => (Ok (Some p), w2)
      | (Raise e, image_path', w2) => handler env safe_name url e image_path' w2
      end
  end.
Proof.
  unfold download_image_stream.
  destruct (prelude host_ok env url name folder w) as [[[[ext safe] ip]|e] w1];
    [|reflexivity].
  destruct (try_body env url timeout folder safe ext ip w1) as [[[p|e] ip'] w2];
    [reflexivity|].
  destruct (is_RequestException e); reflexivity.
Qed.

(** *** What the prelude leaves behind *)

Lemma prelude_ok (url name folder : str) (w : World) ext safe ip w1 :
  prelude host_ok env url name folder w = (Ok (ext, safe, ip), w1) ->
  get_extension_from_url host_ok url = Ok ext
  /\ safe = safe_filename name
  /\ ip = PosixPath.join folder (safe ++ "." ++ ext)
  /\ OS.makedirs env folder w = (Ok tt, w1)
  /\ OS.path_exists w1 ip = false.
Proof.
  unfold prelude.
  destruct (get_extension_from_url host_ok url) as [ext'|e]; [|discriminate].
  destruct (OS.makedirs env folder w) as [[[]|e] w1'] eqn:Hmk; [|discriminate].
  destruct (OS.path_exists w1' _) eqn:Hex; [discriminate|].
  intros H. injection H as <- <- <- <-. auto.
Qed.

Lemma makedirs_sent (folder : str) (w : World) r w1 :
  OS.makedirs env folder w = (r, w1) -> sent w1 = sent w /\ printed w1 = printed w.
Proof.
  unfold OS.makedirs. intros H.
  destruct (fs w !! folder) as [[c|]|]; try (injection H as <- <-; auto).
  destruct (PyStr.str_eqb folder []); [injection H as <- <-; auto|].
  destruct (makedirs_fault env); injection H as <- <-; auto.
Qed.

Lemma makedirs_existing (folder : str) (w : World) :
  fs w !! folder = Some Dir -> OS.makedirs env folder w = (Ok tt, w).
Proof. intros H. unfold OS.makedirs. now rewrite H. Qed.

(** *** The write loop *)

Lemma write_chunks_content (f : str) (cs : list bytes) :
  forall (k : nat) (w w' : World) (c : bytes),
    fs w !! f = Some (File c) ->
    write_chunks env f cs k w = (Ok tt, w') ->
    fs w' !! f = Some (File (c ++ List.concat cs))
    /\ sent w' = sent w /\ printed w' = printed w.
Proof.
  induction cs as [|chunk cs IH]; intros k w w' c Hf H.
  - injection H as <-. now rewrite app_nil_r.
  - destruct chunk as [|b chunk]; [now apply (IH k w w' c)|].
    cbn [write_chunks] in H. unfold OS.write in H.
    destruct (bool_decide (write_fault_at env = Some k)); [discriminate|].
    apply IH with (c := c ++ b :: chunk) in H.
    + cbn [List.concat]. rewrite app_assoc. exact H.
    + cbn [set_fs fs]. rewrite lookup_alter_eq, Hf. reflexivity.
Qed.

Lemma write_chunks_frame (f : str) (cs : list bytes) :
  forall (k : nat) (w w' : World) r,
    write_chunks env f cs k w = (r, w') ->
    sent w' = sent w /\ printed w' = printed w
    /\ forall p, p <> f -> fs w' !! p = fs w !! p.
Proof.
  induction cs as [|chunk cs IH]; intros k w w' r H.
  - injection H as <- <-. auto.
  - destruct chunk as [|b chunk]; [now apply (IH k w w' r)|].
    cbn [write_chunks] in H. unfold OS.write in H.
    destruct (bool_decide (write_fault_at env = Some k)).
    + injection H as <- <-. auto.
    + apply IH in H as (H1 & H2 & H3). cbn [set_fs sent printed fs] in *.
      repeat split; try assumption.
      intros p Hp. rewrite H3 by assumption. now rewrite lookup_alter_ne.
Qed.

(** Empty chunks are skipped: they change neither the outcome nor the
    file. *)
Lemma write_chunks_skip_empty (f : str) (cs : list bytes) (k : nat) (w : World) :
  write_chunks env f (List.filter (fun c => negb (Nat.eqb (length c) 0)) cs) k w
  = write_chunks env f cs k w.
Proof.
  revert k w. induction cs as [|chunk cs IH]; intros k w; [reflexivity|].
  destruct chunk as [|b chunk]; cbn; [apply IH|].
  destruct (OS.write env f (b :: chunk) k w) as [[[]|e] w1];
    [apply IH | reflexivity].
Qed.

End DownloadFacts.

Section DownloadSteps.

Variable host_ok : str -> bool.
Variable env : Env.

(** *** Opening and streaming *)

Lemma save_stream_frame (r : Response) (p : str) (w w' : World) res :
  save_stream env r p w = (res, w') ->
  sent w' = sent w /\ printed w' = printed w
  /\ forall q, q <> p -> fs w' !! q = fs w !! q.
Proof.
  unfold save_stream, OS.open_wb. intros H.
  destruct (fs w !! p) as [[c|]|] eqn:Hp;
    try (injection H as <- <-; auto);
    (destruct (open_fault env); [injection H as <- <-; auto|]);
    (destruct (write_chunks env p (chunks r) 0 _) as [[[]|e] w1] eqn:Hw;
     apply write_chunks_frame in Hw as (H1 & H2 & H3);
     cbn [set_fs sent printed fs] in *;
     assert (w' = w1) as ->
       by (destruct (stream_fault r); now injection H);
     repeat split; try assumption;
     intros q Hq; rewrite H3 by assumption; now rewrite lookup_insert_ne).
Qed.

Lemma save_stream_ok (r : Response) (p : str) (w w' : World) :
  save_stream env r p w = (Ok tt, w') ->
  fs w' !! p = Some (File (List.concat (chunks r))).
Proof.
  unfold save_stream. intros H.
  destruct (OS.open_wb env p w) as [[f|e] w1] eqn:Hopen; [|discriminate].
  assert (Hf : f = p /\ fs w1 !! p = Some (File [])).
  { unfold OS.open_wb in Hopen.
    destruct (fs w !! p) as [[c|]|]; try discriminate;
      (destruct (open_fault env); [discriminate|]);
      injection Hopen as <- <-; cbn [set_fs fs];
      now rewrite lookup_insert_eq. }
  destruct Hf as [-> Hf].
  destruct (write_chunks env p (chunks r) 0 w1) as [[[]|e] w2] eqn:Hw;
    [|discriminate].
  apply write_chunks_content with (c := []) in Hw as (Hw & _); [|assumption].
  destruct (stream_fault r); [discriminate|]. now injection H as <-.
Qed.

(** Without faults the loop runs to its end. *)
Lemma write_chunks_total (f : str) (cs : list bytes) :
  write_fault_at env = None ->
  forall (k : nat) (w : World), exists w', write_chunks env f cs k w = (Ok tt, w').
Proof.
  intros Hnone. induction cs as [|chunk cs IH]; intros k w; [now eexists|].
  destruct chunk as [|b chunk]; [apply IH|].
  cbn [write_chunks]. unfold OS.write. rewrite Hnone.
  rewrite bool_decide_eq_false_2 by discriminate. apply IH.
Qed.

(** *** The body of the [try] *)

Lemma py_or_same (x : option str) : py_or x x = x.
Proof. destruct x as [[|c s]|]; reflexivity. Qed.

Lemma try_body_sent (url : str) (timeout : Z) (folder safe ext ip : str)
    (w1 w2 : World) res ip' :
  try_body env url timeout folder safe ext ip w1 = (res, ip', w2) ->
  sent w2 = sent w1 ++ [mkRequest url None true timeout]
  /\ printed w2 = printed w1.
Proof.
  unfold try_body, Requests.get. intros H.
  destruct (get_outcome env) as [r|e]; [|injection H as <- <- <-; auto].
  destruct (Requests.raise_for_status r); [|injection H as <- <- <-; auto].
  destruct (wants_guess ext _) as [guess|e]; [|injection H as <- <- <-; auto].
  match type of H with
  | context [save_stream env r ?p ?w] =>
      destruct (save_stream env r p w) as [[[]|e] w'] eqn:Hs
  end;
    apply save_stream_frame in Hs as (H1 & H2 & _);
    injection H as <- <- <-; cbn [sent printed] in *; auto.
Qed.

Lemma try_body_ok (url : str) (timeout : Z) (folder safe ext ip : str)
    (w1 w2 : World) p ip' :
  try_body env url timeout folder safe ext ip w1 = (Ok p, ip', w2) ->
  exists r guess,
    get_outcome env = Ok r
    /\ Requests.raise_for_status r = Ok tt
    /\ wants_guess ext (content_type_header r) = Ok guess
    /\ p = resolved_path folder safe ip r guess
    /\ ip' = p
    /\ fs w2 !! p = Some (File (List.concat (chunks r))).
Proof.
  unfold try_body, Requests.get, Requests.headers_get_content_type. intros H.
  destruct (get_outcome env) as [r|e]; [|discriminate].
  destruct (Requests.raise_for_status r) as [[]|e] eqn:Hst; [|discriminate].
  rewrite py_or_same in H.
  destruct (wants_guess ext _) as [guess|e] eqn:Hg; [|discriminate].
  match type of H with
  | context [save_stream env r ?p ?w] =>
      destruct (save_stream env r p w) as [[[]|e] w'] eqn:Hs
  end; [|discriminate].
  injection H as <- <- <-. apply save_stream_ok in Hs.
  exists r, guess. unfold resolved_path. destruct guess; auto 10.
Qed.

(** *** The handlers *)

Lemma remove_partial_spec (ip : str) (w : World) :
  sent (remove_partial env ip w) = sent w
  /\ printed (remove_partial env ip w) = printed w
  /\ (OS.path_exists (remove_partial env ip w) ip = false
      \/ (exists e, fst (OS.remove env ip w) = Raise e)
         /\ remove_partial env ip w = w).
Proof.
  unfold remove_partial. destruct (OS.path_exists w ip) eqn:Hex; [|auto].
  unfold OS.remove.
  destruct (fs w !! ip) as [[c|]|] eqn:Hp; cbn [fst].
  - destruct (remove_fault env) as [e|]; cbn [fst].
    + repeat split. right. eauto.
    + repeat split. left. unfold OS.path_exists. cbn [set_fs fs].
      rewrite lookup_delete_eq. apply bool_decide_eq_false_2.
      intros [x Hx]. discriminate.
  - repeat split. right. eauto.
  - repeat split. right. eauto.
Qed.

Lemma handler_spec (safe url : str) (e : exn) (ip : str) (w : World) :
  fst (handler env safe url e ip w) = Ok None
  /\ sent (snd (handler env safe url e ip w)) = sent w
  /\ printed (snd (handler env safe url e ip w))
     = printed w ++ [failure_message safe url e].
Proof.
  unfold handler. cbn [fst snd].
  destruct (remove_partial_spec ip (OS.print (failure_message safe url e) w))
    as (H1 & H2 & _).
  rewrite H1, H2. auto.
Qed.

(** *** Before the request *)

Lemma prelude_target_exists (url name folder : str) (w : World) (ext : str) :
  get_extension_from_url host_ok url = Ok ext ->
  fs w !! folder = Some Dir ->
  OS.path_exists w (PosixPath.join folder (safe_filename name ++ "." ++ ext)) = true ->
  prelude host_ok env url name folder w
  = (Raise (FileExistsError ("File " ++ safe_filename name ++ " already exists")), w).
Proof.
  intros Hext Hdir Hex. unfold prelude.
  rewrite Hext, (makedirs_existing env folder w Hdir), Hex. reflexivity.
Qed.

Lemma prelude_frame (url name folder : str) (w w1 : World) res :
  prelude host_ok env url name folder w = (res, w1) ->
  sent w1 = sent w /\ printed w1 = printed w.
Proof.
  unfold prelude. intros H.
  destruct (get_extension_from_url host_ok url); [|injection H as <- <-; auto].
  destruct (OS.makedirs env folder w) as [[[]|e] w'] eqn:Hmk;
    apply makedirs_sent in Hmk;
    [destruct (OS.path_exists w' _)|]; injection H as <- <-; auto.
Qed.

End DownloadSteps.

(* ================================================================== *)
(** ** Properties of the download operation *)
(* ================================================================== *)

Section DownloadProperties.

Variable host_ok : str -> bool.
Variable env : Env.


(** A run that passes the existence check issues one request, built
    from the URL, the timeout and [stream=True], without headers. *)
Lemma request_log (url name folder : str) (timeout : Z) (w : World) ext safe ip w1 :
  prelude host_ok env url name folder w = (Ok (ext, safe, ip), w1) ->
  sent (snd (download_image_stream host_ok env url name folder timeout w))
  = sent w ++ [mkRequest url None true timeout].
Proof.
  intros Hpre. rewrite download_unfold, Hpre.
  apply prelude_frame in Hpre as (Hs & _).
  destruct (try_body env url timeout folder safe ext ip w1) as [[[p|e] ip'] w2] eqn:Hb;
    apply try_body_sent in Hb as (Hb & _).
  - cbn [snd]. now rewrite Hb, Hs.
  - destruct (handler_spec env safe url e ip' w2) as (_ & H & _).
    now rewrite H, Hb, Hs.
Qed.

(** The path of the existence check: the directory joined with the
    sanitized name, a dot, and the extension with its own dot. *)
Lemma target_path_shape (url name folder : str) (w : World) ext safe ip w1 :
  prelude host_ok env url name folder w = (Ok (ext, safe, ip), w1) ->
  ip = PosixPath.join folder (safe_filename name ++ "." ++ ext)
  /\ (ext = [] \/ exists x, ext = "."%char :: x).
Proof.
  intros Hpre. apply prelude_ok in Hpre as (Hext & -> & -> & _).
  split; [reflexivity|]. now apply (get_extension_shape host_ok url).
Qed.

(** A run stopped before the request issues none. *)
Lemma no_request_before_check (url name folder : str) (timeout : Z) (w : World) e w1 :
  prelude host_ok env url name folder w = (Raise e, w1) ->
  download_image_stream host_ok env url name folder timeout w = (Raise e, w1)
  /\ sent w1 = sent w.
Proof.
  intros Hpre. rewrite download_unfold, Hpre.
  apply prelude_frame in Hpre as (Hs & _). auto.
Qed.

(** With a success status, a usable content type and no fault of the
    file system or of the stream, the download returns the path. *)
Lemma download_succeeds (url name folder : str) (timeout : Z) (w : World)
    ext safe ip w1 r guess :
  prelude host_ok env url name folder w = (Ok (ext, safe, ip), w1) ->
  get_outcome env = Ok r ->
  Requests.raise_for_status r = Ok tt ->
  wants_guess ext (content_type_header r) = Ok guess ->
  fs w1 !! resolved_path folder safe ip r guess <> Some Dir ->
  open_fault env = None ->
  write_fault_at env = None ->
  stream_fault r = None ->
  fst (download_image_stream host_ok env url name folder timeout w)
  = Ok (Some (resolved_path folder safe ip r guess)).
Proof.
  intros Hpre Hget Hst Hg Hdir Hopen Hwr Hsf.
  rewrite download_unfold, Hpre.
  unfold try_body, Requests.get, Requests.headers_get_content_type.
  rewrite Hget, Hst, py_or_same, Hg.
  fold (resolved_path folder safe ip r guess).
  set (p := resolved_path folder safe ip r guess) in *.
  unfold save_stream, OS.open_wb. rewrite Hopen. cbn [fs].
  destruct (fs w1 !! p) as [[c|]|]; try congruence;
    match goal with
    | |- context [write_chunks env p (chunks r) 0 ?w0] =>
        destruct (write_chunks_total env p (chunks r) Hwr 0%nat w0) as [w2 Hw]
    end;
    rewrite Hw, Hsf; reflexivity.
Qed.

(** C10: when the download succeeds, the file at the returned path
    holds the concatenation of the chunks of the response in order;
    zero-length chunks are skipped and leave it unchanged. *)
Theorem saved_bytes_are_the_body (url name folder : str) (timeout : Z)
    (w w' : World) (p : str) :
  download_image_stream host_ok env url name folder timeout w = (Ok (Some p), w') ->
  exists r,
    get_outcome env = Ok r
    /\ fs w' !! p = Some (File (List.concat (chunks r)))
    /\ List.concat (List.filter (fun c => negb (Nat.eqb (length c) 0)) (chunks r))
       = List.concat (chunks r).
Proof.
  rewrite download_unfold.
  destruct (prelude host_ok env url name folder w) as [[[[ext safe] ip]|e] w1];
    [|discriminate].
  destruct (try_body env url timeout folder safe ext ip w1) as [[[q|e] ip'] w2] eqn:Hb.
  - intros H. injection H as <- <-.
    apply try_body_ok in Hb as (r & guess & Hget & _ & _ & _ & _ & Hfile).
    exists r. repeat split; try assumption.
    clear. induction (chunks r) as [|c cs IH]; [reflexivity|].
    destruct c; cbn; [assumption | now rewrite IH].
  - intros H. destruct (handler_spec env safe url e ip' w2) as (Hh & _).
    rewrite H in Hh. discriminate.
Qed.

(** C5: when the target path computed before the request already
    exists (in its existing directory), the operation raises the
    "already exists" error at once and leaves the world as it was: no
    request issued, nothing created, nothing printed. *)
Theorem existing_target_is_refused (url name folder : str) (timeout : Z)
    (w : World) (ext : str) :
  get_extension_from_url host_ok url = Ok ext ->
  fs w !! folder = Some Dir ->
  OS.path_exists w (PosixPath.join folder (safe_filename name ++ "." ++ ext)) = true ->
  download_image_stream host_ok env url name folder timeout w
  = (Raise (FileExistsError ("File " ++ safe_filename name ++ " already exists")), w).
Proof.
  intros Hext Hdir Hex. rewrite download_unfold.
  now rewrite (prelude_target_exists host_ok env url name folder w ext).
Qed.

(** C3 (amended): once the existence check is passed, every fault (of
    the request, of the status, of the content type, of the file, of
    the stream) is caught and turned into the outcome [None] with a
    printed description; a fault raised before the request, the
    "already exists" error among them, reaches the caller as an
    exception. *)
Theorem faults_reported_after_the_check (url name folder : str) (timeout : Z)
    (w : World) :
  (forall ext safe ip w1,
      prelude host_ok env url name folder w = (Ok (ext, safe, ip), w1) ->
      reports_outcome (download_image_stream host_ok env url name folder timeout w)
      /\ forall e ip' w2,
          try_body env url timeout folder safe ext ip w1 = (Raise e, ip', w2) ->
          fst (download_image_stream host_ok env url name folder timeout w) = Ok None
          /\ printed (snd (download_image_stream host_ok env url name folder timeout w))
             = printed w ++ [failure_message safe url e])
  /\ (forall e w1,
         prelude host_ok env url name folder w = (Raise e, w1) ->
         download_image_stream host_ok env url name folder timeout w = (Raise e, w1))
  /\ (forall ext,
         get_extension_from_url host_ok url = Ok ext ->
         fs w !! folder = Some Dir ->
         OS.path_exists w
           (PosixPath.join folder (safe_filename name ++ "." ++ ext)) = true ->
         fst (download_image_stream host_ok env url name folder timeout w)
         = Raise (FileExistsError ("File " ++ safe_filename name ++ " already exists"))).
Proof.
  split; [|split].
  - intros ext safe ip w1 Hpre. rewrite download_unfold, Hpre.
    pose proof (prelude_frame _ _ _ _ _ _ _ _ Hpre) as (_ & Hpr).
    destruct (try_body env url timeout folder safe ext ip w1)
      as [[[p|e] ip'] w2] eqn:Hb.
    + split; [now eexists | intros; discriminate].
    + destruct (handler_spec env safe url e ip' w2) as (H1 & _ & H3).
      apply try_body_sent in Hb as (_ & Hb).
      split; [now eexists|].
      intros e0 ip0 w0 H. injection H as <- <- <-.
      split; [assumption|]. now rewrite H3, Hb, Hpr.
  - intros e w1 Hpre. now apply no_request_before_check.
  - intros ext Hext Hdir Hex. rewrite download_unfold.
    now rewrite (prelude_target_exists host_ok env url name folder w ext).
Qed.

(** C2 (amended): for every fault after the request was initiated, the
    operation returns [None] and prints the description of that fault;
    afterwards nothing exists at the target path, unless the removal
    itself failed, in which case its fault is dropped and the file
    system is left as the fault found it. *)
Theorem failure_removes_the_partial_file (url name folder : str) (timeout : Z)
    (w : World) ext safe ip w1 e ip' w2 :
  prelude host_ok env url name folder w = (Ok (ext, safe, ip), w1) ->
  try_body env url timeout folder safe ext ip w1 = (Raise e, ip', w2) ->
  fst (download_image_stream host_ok env url name folder timeout w) = Ok None
  /\ printed (snd (download_image_stream host_ok env url name folder timeout w))
     = printed w2 ++ [failure_message safe url e]
  /\ (OS.path_exists
        (snd (download_image_stream host_ok env url name folder timeout w)) ip'
      = false
      \/ (exists e', fst (OS.remove env ip'
                            (OS.print (failure_message safe url e) w2)) = Raise e')
         /\ fs (snd (download_image_stream host_ok env url name folder timeout w)) = fs w2).
Proof.
  intros Hpre Hb. rewrite download_unfold, Hpre, Hb.
  destruct (handler_spec env safe url e ip' w2) as (H1 & _ & H3).
  repeat split; try assumption.
  unfold handler. cbn [snd].
  destruct (remove_partial_spec env ip' (OS.print (failure_message safe url e) w2))
    as (_ & _ & [H|[H Heq]]); [now left | right].
  split; [assumption|]. now rewrite Heq.
Qed.

End DownloadProperties.

(* ================================================================== *)
(** ** The operation on concrete requests *)
(* ================================================================== *)

Section Runs.
Import Scenario.

(** C1 (code bug): for the name [pic] and a URL path ending in [.jpg]
    the path checked and written is [images/pic..jpg]: the format string
    puts a dot before an extension that already carries one. A file at
    [images/pic.jpg] is neither seen by the check nor written. *)
Theorem target_path_doubles_the_dot :
  get_extension_from_url any_host pic_jpg_url = Ok (".jpg" : str)
  /\ fst (run (quiet png_response) pic_jpg_url "pic" empty_world)
     = Ok (Some ("images/pic..jpg" : str))
  /\ fs (snd (run (quiet png_response) pic_jpg_url "pic" empty_world))
       !! ("images/pic..jpg" : str)
     = Some (File [Byte.x01; Byte.x02; Byte.x03])
  /\ fs (snd (run (quiet png_response) pic_jpg_url "pic" empty_world))
       !! ("images/pic.jpg" : str) = None
  /\ fst (run (quiet png_response) pic_jpg_url "pic"
            (world_with [("images/pic.jpg" : str, old_bytes)]))
     = Ok (Some ("images/pic..jpg" : str))
  /\ fst (run (quiet png_response) pic_jpg_url "pic" taken_world)
     = Raise (FileExistsError "File pic already exists").
Proof. repeat split; vm_compute; reflexivity. Qed.

(** C4 (code bug): with no extension in the URL and no content type in
    the response, the lookup of [startswith] on [None] raises; the
    operation reports a failure and saves nothing. With [image/png] the
    file is saved under [.png]. *)
Theorem missing_content_type_aborts :
  get_extension_from_url any_host pic_url = Ok ("" : str)
  /\ fst (run (quiet untyped_response) pic_url "pic" empty_world) = Ok None
  /\ fs (snd (run (quiet untyped_response) pic_url "pic" empty_world))
     = {[ default_folder := Dir ]}
  /\ printed (snd (run (quiet untyped_response) pic_url "pic" empty_world))
     = [failure_message "pic" pic_url
          (AttributeError "'NoneType' object has no attribute 'startswith'")]
  /\ fst (run (quiet png_response) pic_url "pic" empty_world)
     = Ok (Some ("images/pic.png" : str)).
Proof. repeat split; vm_compute; reflexivity. Qed.

(** C6 (code bug): the existence check looks at [images/pic.], the
    write goes to the recomputed [images/pic.png]; a file that was there
    before the call is truncated by the write and removed by the
    handler when the stream breaks. *)
Theorem preexisting_file_is_removed :
  fs png_taken_world !! ("images/pic.png" : str) = Some (File old_bytes)
  /\ fst (run (quiet broken_png_response) pic_url "pic" png_taken_world) = Ok None
  /\ fs (snd (run (quiet broken_png_response) pic_url "pic" png_taken_world))
       !! ("images/pic.png" : str) = None.
Proof. repeat split; vm_compute; reflexivity. Qed.

(** C9 (code bug): the run issues one GET with the URL, streaming and
    the timeout, but the [headers] dictionary built on line 41 is not
    passed to [requests.get]: the request carries no header of the
    program. *)
Theorem request_carries_no_header :
  sent (snd (run (quiet png_response) pic_jpg_url "pic" empty_world))
  = [mkRequest pic_jpg_url None true default_timeout]
  /\ req_headers <$> sent (snd (run (quiet png_response) pic_jpg_url "pic" empty_world))
     = [None].
Proof. split; vm_compute; reflexivity. Qed.

(** C2, as stated, fails: the second write raises, the removal of the
    partial file raises as well and is dropped; the operation returns
    [None] and the partial file is still at the target path. *)
Lemma partial_file_survives_failed_removal :
  fst (run stuck pic_jpg_url "pic" empty_world) = Ok None
  /\ OS.path_exists (snd (run stuck pic_jpg_url "pic" empty_world))
       ("images/pic..jpg" : str) = true
  /\ fs (snd (run stuck pic_jpg_url "pic" empty_world)) !! ("images/pic..jpg" : str)
     = Some (File [Byte.x01; Byte.x02]).
Proof. repeat split; vm_compute; reflexivity. Qed.

(** C3, as stated, fails: with the target already on disk the operation
    raises [FileExistsError] to its caller instead of reporting an
    outcome. *)
Lemma existing_target_raises_to_caller :
  ~ reports_outcome (run (quiet png_response) pic_jpg_url "pic" taken_world).
Proof. intros [v H]. vm_compute in H. discriminate. Qed.

(** The bytes saved by a run without faults. *)
Lemma saved_bytes_witness :
  run (quiet png_response) pic_jpg_url "pic" empty_world
  = (Ok (Some ("images/pic..jpg" : str)),
     snd (run (quiet png_response) pic_jpg_url "pic" empty_world))
  /\ exists r,
      get_outcome (quiet png_response) = Ok r
      /\ fs (snd (run (quiet png_response) pic_jpg_url "pic" empty_world))
           !! ("images/pic..jpg" : str)
         = Some (File (List.concat (chunks r)))
      /\ List.concat (List.filter (fun c => negb (Nat.eqb (length c) 0)) (chunks r))
         = List.concat (chunks r).
Proof.
  split; [vm_compute; reflexivity|].
  apply (saved_bytes_are_the_body any_host (quiet png_response) pic_jpg_url "pic"
           default_folder default_timeout empty_world).
  vm_compute; reflexivity.
Defined.

(** A refused download. *)
Lemma existing_target_witness :
  get_extension_from_url any_host pic_jpg_url = Ok (".jpg" : str)
  /\ fs taken_world !! default_folder = Some Dir
  /\ OS.path_exists taken_world
       (PosixPath.join default_folder (safe_filename "pic" ++ "." ++ ".jpg")) = true
  /\ run (quiet png_response) pic_jpg_url "pic" taken_world
     = (Raise (FileExistsError ("File " ++ safe_filename "pic" ++ " already exists")),
        taken_world).
Proof.
  split; [vm_compute; reflexivity|].
  split; [vm_compute; reflexivity|].
  split; [vm_compute; reflexivity|].
  apply (existing_target_is_refused any_host (quiet png_response) pic_jpg_url "pic"
           default_folder default_timeout taken_world ".jpg");
    vm_compute; reflexivity.
Defined.

(** A broken stream is reported; an existing target is raised. *)
Lemma faults_reported_witness :
  (reports_outcome (run (quiet broken_png_response) pic_jpg_url "pic" empty_world)
   /\ fst (run (quiet broken_png_response) pic_jpg_url "pic" empty_world) = Ok None
   /\ printed (snd (run (quiet broken_png_response) pic_jpg_url "pic" empty_world))
      = printed empty_world
        ++ [failure_message "pic" pic_jpg_url (ChunkedEncodingError "Connection broken")])
  /\ fst (run (quiet png_response) pic_jpg_url "pic" taken_world)
     = Raise (FileExistsError ("File " ++ safe_filename "pic" ++ " already exists")).
Proof.
  split.
  - destruct (faults_reported_after_the_check any_host (quiet broken_png_response)
                pic_jpg_url "pic" default_folder default_timeout empty_world)
      as (H & _ & _).
    assert (Hpre : prelude any_host (quiet broken_png_response) pic_jpg_url "pic"
                     default_folder empty_world
                   = (Ok (".jpg" : str, "pic" : str, "images/pic..jpg" : str),
                      mkWorld {[ default_folder := Dir ]} [] []))
      by (vm_compute; reflexivity).
    destruct (H _ _ _ _ Hpre) as (H1 & H2).
    split; [exact H1|].
    apply (H2 (ChunkedEncodingError "Connection broken") "images/pic..jpg"
              (snd (try_body (quiet broken_png_response) pic_jpg_url default_timeout
                      default_folder "pic" ".jpg" "images/pic..jpg"
                      (mkWorld {[ default_folder := Dir ]} [] [])))).
    vm_compute; reflexivity.
  - destruct (faults_reported_after_the_check any_host (quiet png_response)
                pic_jpg_url "pic" default_folder default_timeout taken_world)
      as (_ & _ & H).
    apply (H ".jpg"); vm_compute; reflexivity.
Defined.

(** A write fault with a working removal: the partial file is gone. *)
Lemma failure_cleanup_witness :
  fst (run (mkEnv (Ok png_response) None None (Some 1%nat) None)
           pic_jpg_url "pic" empty_world) = Ok None
  /\ OS.path_exists
       (snd (run (mkEnv (Ok png_response) None None (Some 1%nat) None)
                 pic_jpg_url "pic" empty_world))
       ("images/pic..jpg" : str) = false.
Proof.
  assert (Hpre : prelude any_host (mkEnv (Ok png_response) None None (Some 1%nat) None)
                   pic_jpg_url "pic" default_folder empty_world
                 = (Ok (".jpg" : str, "pic" : str, "images/pic..jpg" : str),
                    mkWorld {[ default_folder := Dir ]} [] []))
    by (vm_compute; reflexivity).
  assert (Hbody : try_body (mkEnv (Ok png_response) None None (Some 1%nat) None)
                    pic_jpg_url default_timeout default_folder "pic" ".jpg"
                    "images/pic..jpg" (mkWorld {[ default_folder := Dir ]} [] [])
                  = (Raise (OSError "write failed"), "images/pic..jpg" : str,
                     snd (try_body (mkEnv (Ok png_response) None None (Some 1%nat) None)
                            pic_jpg_url default_timeout default_folder "pic" ".jpg"
                            "images/pic..jpg"
                            (mkWorld {[ default_folder := Dir ]} [] []))))
    by (vm_compute; reflexivity).
  destruct (failure_removes_the_partial_file any_host _ _ _ _ default_timeout
              _ _ _ _ _ _ _ _ Hpre Hbody) as (H1 & _ & [H3|[[e' H3] _]]).
  - split; [exact H1 | exact H3].
  - vm_compute in H3. discriminate.
Defined.

End Runs.

(* ================================================================== *)
(** ** Further properties of the sanitizer and the resolver *)
(* ================================================================== *)

Section MoreStrings.
Import PyStr.

Lemma split_acc_app (c : ascii) (a b cur : str) :
  split_acc c (a ++ c :: b) cur = split_acc c a cur ++ split_acc c b [].
Proof.
  revert cur. induction a as [|x a IH]; intros cur; simpl.
  - now rewrite Ascii.eqb_refl.
  - destruct (Ascii.eqb x c); [now rewrite IH | apply IH].
Qed.

Lemma split_app (c : ascii) (a b : str) :
  split c (a ++ c :: b) = split c a ++ split c b.
Proof. apply split_acc_app. Qed.

Lemma filter_last_kept {A : Type} (f : A -> bool) (l : list A) (d : A) :
  List.filter f l = [] \/ f (List.last (List.filter f l) d) = true.
Proof.
  destruct (List.filter f l) as [|x l'] eqn:E; [now left | right].
  assert (Hin : In (List.last (x :: l') d) (List.filter f l)).
  { rewrite E. clear E. revert x. induction l' as [|y l' IH]; intros x.
    - now left.
    - right. apply IH. }
  apply filter_In in Hin. tauto.
Qed.

Lemma name_empty_or_kept (s : str) :
  PosixPath.parts s = [] \/ PosixPath.kept_component (PosixPath.name s) = true.
Proof. apply filter_last_kept. Qed.

Lemma kept_component_spec (x : str) :
  PosixPath.kept_component x = true <-> x <> [] /\ x <> ["."%char].
Proof.
  unfold PosixPath.kept_component, str_eqb, PosixPath.extsep.
  rewrite negb_true_iff, orb_false_iff, !bool_decide_eq_false. tauto.
Qed.

(** A string without separator is its own name, [.] apart. *)
Lemma name_single (x : str) :
  ~ In "/"%char x -> x <> ["."%char] -> PosixPath.name x = x.
Proof.
  intros Hsep Hdot. unfold PosixPath.name, PosixPath.parts, PosixPath.sep.
  rewrite split_without by assumption. cbn [List.filter].
  destruct (PosixPath.kept_component x) eqn:E; [reflexivity|].
  destruct x as [|c x]; [reflexivity|].
  exfalso. apply not_true_iff_false in E. apply E, kept_component_spec.
  split; [discriminate | assumption].
Qed.

Lemma sub_unsafe_fixes_safe (s : str) :
  Forall (fun c => Re.in_safe_class c = true) s -> Re.sub_unsafe s = s.
Proof.
  unfold Re.sub_unsafe. induction 1 as [|c s Hc _ IH]; [reflexivity|].
  cbn [map]. now rewrite Hc, IH.
Qed.

Lemma sub_unsafe_single_dot (s : str) :
  Re.sub_unsafe s = ["."%char] -> s = ["."%char].
Proof.
  destruct s as [|a [|b s]]; try discriminate.
  cbn. intros H. injection H as Ha. apply sub_unsafe_dot in Ha. now subst.
Qed.

Lemma safe_filename_not_dot (s : str) : safe_filename s <> ["."%char].
Proof.
  unfold safe_filename. intros H. apply sub_unsafe_single_dot in H.
  destruct (name_empty_or_kept s) as [E|E].
  - unfold PosixPath.name in H. rewrite E in H. discriminate.
  - apply kept_component_spec in E. tauto.
Qed.

(** X1: sanitizing a sanitized name changes nothing. *)
Theorem safe_filename_idempotent (s : str) :
  safe_filename (safe_filename s) = safe_filename s.
Proof.
  pose proof (sub_unsafe_safe (PosixPath.name s)) as Hsafe.
  fold (safe_filename s) in Hsafe.
  unfold safe_filename at 1.
  rewrite name_single.
  - now apply sub_unsafe_fixes_safe.
  - now apply safe_class_no_separator.
  - apply safe_filename_not_dot.
Qed.

(** X2: a name made of characters of the class only, other than the
    single dot, is returned unchanged. *)
Theorem safe_filename_keeps_safe_names (s : str) :
  Forall (fun c => Re.in_safe_class c = true) s ->
  s <> ["."%char] ->
  safe_filename s = s.
Proof.
  intros Hsafe Hdot. unfold safe_filename.
  rewrite name_single; [now apply sub_unsafe_fixes_safe | | assumption].
  now apply safe_class_no_separator.
Qed.

Lemma safe_filename_keeps_safe_names_example :
  Forall (fun c => Re.in_safe_class c = true) ("holiday-2024_v1.final" : str)
  /\ ("holiday-2024_v1.final" : str) <> ["."%char]
  /\ safe_filename "holiday-2024_v1.final" = "holiday-2024_v1.final".
Proof.
  assert (H1 : Forall (fun c => Re.in_safe_class c = true)
                 ("holiday-2024_v1.final" : str))
    by (repeat constructor).
  assert (H2 : ("holiday-2024_v1.final" : str) <> ["."%char]) by discriminate.
  split; [exact H1|]. split; [exact H2|].
  exact (safe_filename_keeps_safe_names _ H1 H2).
Defined.

(** X3: the sanitized name is empty exactly when the input has no
    component other than the empty one and the single dot (as in [""],
    ["/"], ["."] or ["./"]). *)
Theorem safe_filename_empty_iff (s : str) :
  safe_filename s = [] <-> PosixPath.parts s = [].
Proof.
  unfold safe_filename, Re.sub_unsafe. split.
  - intros H. apply map_eq_nil in H.
    destruct (name_empty_or_kept s) as [E|E]; [assumption|].
    apply kept_component_spec in E. tauto.
  - intros H. unfold PosixPath.name. now rewrite H.
Qed.

(** X4: the directories before the final component are discarded, and
    so is a trailing separator. *)
Theorem safe_filename_drops_directories (d s : str) :
  ~ In "/"%char s -> s <> [] -> s <> ["."%char] ->
  safe_filename (d ++ "/"%char :: s) = safe_filename s
  /\ safe_filename (d ++ "/"%char :: s ++ ["/"%char]) = safe_filename s.
Proof.
  intros Hsep Hne Hdot.
  assert (Hk : PosixPath.kept_component s = true)
    by now apply kept_component_spec.
  assert (Hname : PosixPath.name s = s) by now apply name_single.
  unfold safe_filename. rewrite Hname. split; f_equal.
  - unfold PosixPath.name, PosixPath.parts, PosixPath.sep.
    rewrite split_app, List.filter_app, (split_without _ s) by assumption.
    cbn [List.filter]. rewrite Hk. apply last_last.
  - unfold PosixPath.name, PosixPath.parts, PosixPath.sep.
    change (d ++ "/"%char :: s ++ ["/"%char])
      with (d ++ "/"%char :: (s ++ "/"%char :: [])).
    rewrite split_app, (split_app _ s []), (split_without _ s) by assumption.
    rewrite !List.filter_app. cbn. rewrite Hk.
    rewrite app_nil_r. apply last_last.
Qed.

Lemma safe_filename_drops_directories_example :
  (~ In "/"%char ("cat 1.png" : str)
   /\ ("cat 1.png" : str) <> [] /\ ("cat 1.png" : str) <> ["."%char])
  /\ safe_filename ("/home/me/pics" ++ "/"%char :: ("cat 1.png" : str)) = "cat_1.png".
Proof.
  assert (H1 : ~ In "/"%char ("cat 1.png" : str))
    by (intros H; cbn in H; intuition discriminate).
  assert (H2 : ("cat 1.png" : str) <> []) by discriminate.
  assert (H3 : ("cat 1.png" : str) <> ["."%char]) by discriminate.
  split; [auto|].
  rewrite (proj1 (safe_filename_drops_directories "/home/me/pics" _ H1 H2 H3)).
  reflexivity.
Defined.

End MoreStrings.

Section MoreExtension.
Import PyStr.

Lemma lower_char_not_upper (c : ascii) : is_upper (lower_char c) = false.
Proof. destruct c as [[] [] [] [] [] [] [] []]; reflexivity. Qed.

Lemma lower_char_keeps_sep (c : ascii) : lower_char c = "/"%char -> c = "/"%char.
Proof.
  destruct c as [[] [] [] [] [] [] [] []]; vm_compute; intros H;
    first [reflexivity | discriminate H].
Qed.

Lemma lower_char_keeps_dot (c : ascii) : lower_char c = "."%char -> c = "."%char.
Proof.
  destruct c as [[] [] [] [] [] [] [] []]; vm_compute; intros H;
    first [reflexivity | discriminate H].
Qed.

Lemma lower_without (d : ascii) (s : str) :
  (forall c, lower_char c = d -> c = d) -> ~ In d s -> ~ In d (lower s).
Proof.
  intros Hd Hs Hin. unfold lower in Hin. apply in_map_iff in Hin as (c & E & Hc).
  apply Hd in E. now subst.
Qed.

Lemma lstrip_incl (p : ascii -> bool) (s : str) (c : ascii) :
  In c (lstrip p s) -> In c s.
Proof.
  induction s as [|x s IH]; [tauto|]. simpl.
  destruct (p x); [right; now apply IH | tauto].
Qed.

Lemma after_last_incl (d : ascii) (s : str) (c : ascii) :
  In c (after_last d s) -> In c s.
Proof.
  destruct (in_dec ascii_dec d s) as [Hin|Hout].
  - destruct (last_occurrence d s Hin) as (a & b & -> & Hb).
    rewrite after_last_app by assumption. intros H.
    apply in_or_app. right. now right.
  - now rewrite after_last_without.
Qed.

Lemma dotted_extension_clean (p : str) :
  Forall (fun c => is_upper c = false) (dotted_extension_of_path p)
  /\ ~ In "/"%char (dotted_extension_of_path p)
  /\ (dotted_extension_of_path p = []
      \/ exists x, dotted_extension_of_path p = "."%char :: x
                   /\ ~ In "."%char x).
Proof.
  unfold dotted_extension_of_path.
  set (seg := lstrip is_dot (final_segment p)).
  assert (Hseg : ~ In "/"%char seg).
  { intros H. apply lstrip_incl in H.
    now apply (after_last_no_sep "/"%char p). }
  destruct (contains "."%char seg); [|repeat split; [constructor | tauto | now left]].
  change ("." ++ lower (after_last "."%char seg))
    with ("."%char :: lower (after_last "."%char seg)).
  repeat split.
  - constructor; [reflexivity|]. unfold lower.
    apply List.Forall_map, List.Forall_forall. intros c _.
    apply lower_char_not_upper.
  - intros [E|H]; [discriminate|]. revert H.
    apply lower_without; [apply lower_char_keeps_sep|].
    intros H. apply after_last_incl in H. contradiction.
  - right. eexists. split; [reflexivity|].
    apply lower_without; [apply lower_char_keeps_dot|].
    apply after_last_no_sep.
Qed.

Lemma get_extension_clean (host_ok : str -> bool) (url ext : str) :
  get_extension_from_url host_ok url = Ok ext ->
  Forall (fun c => is_upper c = false) ext
  /\ ~ In "/"%char ext
  /\ (ext = [] \/ exists x, ext = "."%char :: x /\ ~ In "."%char x).
Proof.
  rewrite get_extension_resolved.
  destruct (UrlParse.urlparse_path host_ok url) as [path|e]; [|discriminate].
  cbn [bind]. intros H. injection H as <-. apply dotted_extension_clean.
Qed.

(** X5: whatever the URL, a resolved extension has no upper-case ASCII
    letter and no path separator, and is either empty or one dot
    followed by characters other than the dot. *)
Theorem extension_is_clean (host_ok : str -> bool) (url ext : str) :
  get_extension_from_url host_ok url = Ok ext ->
  Forall (fun c => is_upper c = false) ext
  /\ ~ In "/"%char ext
  /\ (ext = [] \/ exists x, ext = "."%char :: x /\ ~ In "."%char x).
Proof. apply get_extension_clean. Qed.

Lemma extension_is_clean_example :
  get_extension_from_url any_host "https://cdn.example.org/a.b/Photo.TAR.GZ#top"
  = Ok (".gz" : str)
  /\ Forall (fun c => is_upper c = false) (".gz" : str)
  /\ ~ In "/"%char (".gz" : str)
  /\ ((".gz" : str) = [] \/ exists x, (".gz" : str) = "."%char :: x /\ ~ In "."%char x).
Proof.
  assert (H : get_extension_from_url any_host
                "https://cdn.example.org/a.b/Photo.TAR.GZ#top" = Ok (".gz" : str))
    by (vm_compute; reflexivity).
  split; [exact H|]. exact (extension_is_clean any_host _ _ H).
Defined.

End MoreExtension.

(* ================================================================== *)
(** ** Further properties of the download operation *)
(* ================================================================== *)

Section Paths.
Import PyStr.

Lemma startswith_sep_false (b : str) :
  ~ In "/"%char b -> startswith [PosixPath.sep] b = false.
Proof.
  destruct b as [|c b]; [reflexivity|]. intros H. cbn [startswith].
  rewrite andb_true_r. apply ascii_eqb_false. intros E. apply H. now left.
Qed.

(** Joining a component without separator appends it, after a
    separator if the directory needs one. *)
Lemma join_component (a b : str) :
  ~ In "/"%char b ->
  PosixPath.join a b = a ++ b \/ PosixPath.join a b = a ++ "/"%char :: b.
Proof.
  intros H. unfold PosixPath.join. rewrite startswith_sep_false by assumption.
  destruct (str_eqb a [] || endswith_char PosixPath.sep a)%bool; [now left | now right].
Qed.

Lemma join_component_longer (a b : str) :
  ~ In "/"%char b -> b <> [] -> PosixPath.join a b <> a.
Proof.
  intros H Hb E. destruct b as [|c b]; [congruence|].
  apply (f_equal (@length ascii)) in E.
  destruct (join_component a (c :: b) H) as [J|J]; rewrite J in E;
    rewrite length_app in E; cbn [length] in E; lia.
Qed.

Lemma guessed_extension_shape (ct : str) :
  guessed_extension ct = "."%char :: lower (after_last "/"%char ct)
  /\ ~ In "/"%char (lower (after_last "/"%char ct)).
Proof.
  split; [reflexivity|].
  apply lower_without; [apply lower_char_keeps_sep | apply after_last_no_sep].
Qed.

(** A component built from a sanitized name, a dot and a suffix. *)
Lemma component_clean (name suffix : str) :
  ~ In "/"%char suffix ->
  ~ In "/"%char (safe_filename name ++ "."%char :: suffix)
  /\ safe_filename name ++ "."%char :: suffix <> [].
Proof.
  intros H. split.
  - intros Hin. apply in_app_or in Hin as [Hin|[E|Hin]].
    + revert Hin. apply safe_class_no_separator, sub_unsafe_safe.
    + discriminate.
    + contradiction.
  - destruct (safe_filename name); discriminate.
Qed.

End Paths.

Section MoreDownload.

Variable host_ok : str -> bool.
Variable env : Env.

Lemma makedirs_post (folder : str) (w w1 : World) :
  OS.makedirs env folder w = (Ok tt, w1) ->
  fs w1 !! folder = Some Dir.
Proof.
  unfold OS.makedirs. intros H.
  destruct (fs w !! folder) as [[c|]|] eqn:E; try discriminate.
  - now injection H as <-.
  - destruct (PyStr.str_eqb folder []); [discriminate|].
    destruct (makedirs_fault env); [discriminate|].
    injection H as <-. cbn [set_fs fs]. apply lookup_insert_eq.
Qed.



(** The variable [image_path] leaves the body either unchanged or
    recomputed from the content type; nothing but that path changes on
    disk. *)
Lemma try_body_frame (url : str) (timeout : Z) (folder safe ext ip : str)
    (w1 w2 : World) res ip' :
  try_body env url timeout folder safe ext ip w1 = (res, ip', w2) ->
  (ip' = ip
   \/ exists r ct, get_outcome env = Ok r /\ content_type_header r = Some ct
                   /\ ext = [] /\ PyStr.startswith "image/" ct = true
                   /\ ip' = PosixPath.join folder (safe ++ guessed_extension ct))
  /\ forall q, q <> ip' -> fs w2 !! q = fs w1 !! q.
Proof.
  unfold try_body, Requests.get, Requests.headers_get_content_type. intros H.
  destruct (get_outcome env) as [r|e] eqn:Hget; [|injection H as <- <- <-; auto].
  destruct (Requests.raise_for_status r); [|injection H as <- <- <-; auto].
  rewrite py_or_same in H.
  destruct (wants_guess ext (content_type_header r)) as [guess|e] eqn:Hg;
    [|injection H as <- <- <-; auto].
  assert (Hpath : guess = false
                  \/ exists ct, content_type_header r = Some ct /\ ext = []
                                /\ PyStr.startswith "image/" ct = true
                                /\ guess = true).
  { destruct guess; [right | now left].
    unfold wants_guess, startswith_image in Hg.
    destruct ext; [|discriminate].
    destruct (content_type_header r) as [ct|]; [|discriminate].
    exists ct. repeat split. congruence. }
  match type of H with
  | context [save_stream env r ?p ?w] =>
      destruct (save_stream env r p w) as [[[]|e] w'] eqn:Hs
  end;
    apply save_stream_frame in Hs as (_ & _ & Hf); cbn [fs] in Hf;
    injection H as <- <- <-; (split; [|exact Hf]);
    (destruct Hpath as [->|(ct & Hct & -> & Hst & ->)]; [now left | right]);
    exists r, ct; rewrite Hct; auto.
Qed.

Lemma remove_partial_frame (ip : str) (w : World) :
  forall q, q <> ip -> fs (remove_partial env ip w) !! q = fs w !! q.
Proof.
  intros q Hq. unfold remove_partial, OS.remove.
  destruct (OS.path_exists w ip); [|reflexivity].
  destruct (fs w !! ip) as [[c|]|]; try reflexivity.
  destruct (remove_fault env); [reflexivity|].
  cbn [set_fs fs]. now rewrite lookup_delete_ne.
Qed.

Lemma handler_frame (safe url : str) (e : exn) (ip : str) (w : World) :
  forall q, q <> ip -> fs (snd (handler env safe url e ip w)) !! q = fs w !! q.
Proof.
  intros q Hq. unfold handler. cbn [snd]. now rewrite remove_partial_frame.
Qed.

(** Every value the variable [image_path] takes is the folder joined
    with the sanitized name, a dot and a suffix without separator. *)
Lemma image_path_shape (url name folder : str) (timeout : Z) (w : World)
    ext safe ip w1 res ip' w2 :
  prelude host_ok env url name folder w = (Ok (ext, safe, ip), w1) ->
  try_body env url timeout folder safe ext ip w1 = (res, ip', w2) ->
  exists suffix,
    ~ In "/"%char suffix
    /\ ip' = PosixPath.join folder (safe_filename name ++ "."%char :: suffix).
Proof.
  intros Hpre Hb.
  pose proof (prelude_ok _ _ _ _ _ _ _ _ _ _ Hpre) as (Hext & -> & -> & _).
  apply try_body_frame in Hb as ([->|(r & ct & _ & _ & _ & _ & ->)] & _).
  - exists ext. split; [|reflexivity].
    now apply (get_extension_clean host_ok url).
  - exists (PyStr.lower (after_last "/"%char ct)).
    destruct (guessed_extension_shape ct) as (-> & H). now split.
Qed.

End MoreDownload.

Section DownloadExtras.

Variable host_ok : str -> bool.
Variable env : Env.


(** X7: a returned path is the folder followed, after a separator if
    the folder needs one, by a single non-empty component without
    separator. *)
Theorem saved_path_is_one_component_below (url name folder : str) (timeout : Z)
    (w w' : World) (p : str) :
  download_image_stream host_ok env url name folder timeout w = (Ok (Some p), w') ->
  exists comp,
    comp <> [] /\ ~ In "/"%char comp
    /\ (p = folder ++ comp \/ p = folder ++ "/"%char :: comp).
Proof.
  rewrite download_unfold.
  destruct (prelude host_ok env url name folder w) as [[[[ext safe] ip]|e] w1] eqn:Hpre;
    [|discriminate].
  destruct (try_body env url timeout folder safe ext ip w1)
    as [[[q|e] ip'] w2] eqn:Hb.
  - intros H. injection H as <- <-.
    pose proof (try_body_ok _ _ _ _ _ _ _ _ _ _ _ Hb)
      as (_ & _ & _ & _ & _ & _ & Hip & _).
    destruct (image_path_shape _ _ _ _ _ _ _ _ _ _ _ _ _ _ Hpre Hb)
      as (suffix & Hs & E).
    destruct (component_clean name suffix Hs) as (Hc & Hne).
    exists (safe_filename name ++ "."%char :: suffix).
    repeat split; try assumption.
    rewrite <- Hip, E. now apply join_component.
  - intros H. destruct (handler_spec env safe url e ip' w2) as (Hh & _).
    rewrite H in Hh. discriminate.
Qed.

(** X8: when the request itself fails or the status is an error, the
    operation returns [None], prints one message with the cause, and
    leaves the disk as the directory creation left it: no file is
    opened. *)
Theorem request_failure_leaves_disk (url name folder : str) (timeout : Z)
    (w : World) ext safe ip w1 e :
  prelude host_ok env url name folder w = (Ok (ext, safe, ip), w1) ->
  get_outcome env = Raise e
  \/ (exists r, get_outcome env = Ok r /\ Requests.raise_for_status r = Raise e) ->
  fst (download_image_stream host_ok env url name folder timeout w) = Ok None
  /\ fs (snd (download_image_stream host_ok env url name folder timeout w)) = fs w1
  /\ printed (snd (download_image_stream host_ok env url name folder timeout w))
     = printed w ++ [failure_message safe url e].
Proof.
  intros Hpre Hfail. rewrite download_unfold, Hpre.
  pose proof (prelude_ok _ _ _ _ _ _ _ _ _ _ Hpre) as (_ & _ & _ & _ & Hex).
  pose proof (prelude_frame _ _ _ _ _ _ _ _ Hpre) as (_ & Hpr).
  assert (Hb : try_body env url timeout folder safe ext ip w1
               = (Raise e, ip,
                  mkWorld (fs w1) (sent w1 ++ [mkRequest url None true timeout])
                          (printed w1))).
  { unfold try_body, Requests.get.
    destruct Hfail as [->|(r & -> & ->)]; reflexivity. }
  rewrite Hb. unfold handler, remove_partial, OS.path_exists, OS.print.
  cbn [fs sent printed fst snd]. unfold OS.path_exists in Hex. rewrite Hex.
  cbn [fs printed]. now rewrite Hpr.
Qed.

Lemma write_chunks_prefix (f : str) (cs : list bytes) :
  forall (k : nat) (w w' : World) (c : bytes) res,
    fs w !! f = Some (File c) ->
    write_chunks env f cs k w = (res, w') ->
    exists pre post,
      List.concat cs = pre ++ post
      /\ fs w' !! f = Some (File (c ++ pre))
      /\ (res = Ok tt -> post = []).
Proof.
  induction cs as [|chunk cs IH]; intros k w w' c res Hf H.
  - injection H as <- <-. exists [], []. repeat split; auto.
    now rewrite app_nil_r.
  - destruct chunk as [|b chunk]; [now apply (IH k w w' c res)|].
    cbn [write_chunks] in H. unfold OS.write in H.
    destruct (bool_decide (write_fault_at env = Some k)).
    + injection H as <- <-. exists [], (List.concat ((b :: chunk) :: cs)).
      repeat split; [now rewrite app_nil_r | discriminate].
    + apply IH with (c := c ++ b :: chunk) in H
        as (pre & post & Hcat & Hfile & Hok).
      * exists ((b :: chunk) ++ pre), post. cbn [List.concat].
        rewrite Hcat, <- !app_assoc. rewrite <- app_assoc in Hfile. auto.
      * cbn [set_fs fs]. rewrite lookup_alter_eq, Hf. reflexivity.
Qed.

Lemma open_wb_cases (p : str) (w w1 : World) res :
  OS.open_wb env p w = (res, w1) ->
  (res = Ok p /\ fs w1 !! p = Some (File []))
  \/ (exists e, res = Raise e /\ w1 = w).
Proof.
  unfold OS.open_wb. intros H.
  destruct (fs w !! p) as [[old|]|];
    try (destruct (open_fault env));
    injection H as <- <-; eauto;
    left; cbn [set_fs fs]; now rewrite lookup_insert_eq.
Qed.

(** X12: when the path is free before the file is opened, whatever way
    the streaming ends, a file left at the path holds a prefix of the
    body, and all of it when the streaming ends normally. *)
Theorem disk_holds_a_prefix_of_the_body (r : Response) (p : str) (w w' : World)
    res (c : bytes) :
  fs w !! p = None ->
  save_stream env r p w = (res, w') ->
  fs w' !! p = Some (File c) ->
  exists rest, List.concat (chunks r) = c ++ rest /\ (res = Ok tt -> rest = []).
Proof.
  unfold save_stream. intros Hfree H Hc.
  destruct (OS.open_wb env p w) as [ro w1] eqn:Hopen.
  apply open_wb_cases in Hopen as [(-> & Hnew)|(e & -> & ->)].
  - destruct (write_chunks env p (chunks r) 0 w1) as [rw w2] eqn:Hw.
    destruct (write_chunks_prefix p (chunks r) 0%nat w1 w2 [] rw Hnew Hw)
      as (pre & post & Hcat & Hfile & Hok).
    cbn [app] in Hfile.
    assert (w' = w2) as ->.
    { destruct rw as [[]|e]; [destruct (stream_fault r)|]; now injection H. }
    rewrite Hfile in Hc. injection Hc as <-.
    exists post. split; [assumption|]. intros ->.
    destruct rw as [[]|e]; [|discriminate].
    destruct (stream_fault r); [discriminate | now apply Hok].
  - injection H as <- <-. rewrite Hfree in Hc. discriminate.
Qed.

End DownloadExtras.

Section DownloadComposition.

Variable host_ok : str -> bool.

Lemma write_chunks_env (env env' : Env) (f : str) (cs : list bytes) :
  write_fault_at env = write_fault_at env' ->
  forall (k : nat) (w : World),
    write_chunks env f cs k w = write_chunks env' f cs k w.
Proof.
  intros E. induction cs as [|chunk cs IH]; intros k w; [reflexivity|].
  destruct chunk as [|b chunk]; [apply IH|].
  cbn [write_chunks]. unfold OS.write. rewrite E.
  destruct (bool_decide (write_fault_at env' = Some k)); [reflexivity | apply IH].
Qed.

(** X9: when the URL gives an extension, the content type of the
    response plays no part: two responses that differ in it only give
    the same outcome and the same world. *)
Theorem content_type_unused_with_extension (url name folder : str) (timeout : Z)
    (w : World) (ext : str) (status : Z) (ct ct' : option str)
    (body : list bytes) (sf : option exn)
    (mf opf : option exn) (wf : option nat) (rf : option exn) :
  get_extension_from_url host_ok url = Ok ext ->
  ext <> [] ->
  download_image_stream host_ok
    (mkEnv (Ok (mkResponse status ct body sf)) mf opf wf rf)
    url name folder timeout w
  = download_image_stream host_ok
      (mkEnv (Ok (mkResponse status ct' body sf)) mf opf wf rf)
      url name folder timeout w.
Proof.
  intros Hext Hne.
  set (env := mkEnv (Ok (mkResponse status ct body sf)) mf opf wf rf).
  set (env' := mkEnv (Ok (mkResponse status ct' body sf)) mf opf wf rf).
  assert (Hpre : prelude host_ok env url name folder w
                 = prelude host_ok env' url name folder w) by reflexivity.
  rewrite !download_unfold, <- Hpre.
  destruct (prelude host_ok env url name folder w) as [[[[ext0 safe] ip]|e] w1] eqn:Hp;
    [|reflexivity].
  apply prelude_ok in Hp as (Hext0 & _). rewrite Hext in Hext0.
  injection Hext0 as <-.
  assert (Hbody : try_body env url timeout folder safe ext ip w1
                  = try_body env' url timeout folder safe ext ip w1).
  { unfold try_body, Requests.get, Requests.headers_get_content_type,
      Requests.raise_for_status.
    cbn [get_outcome env env' content_type_header status_code].
    destruct ((400 <=? status) && (status <? 600))%bool; [reflexivity|].
    destruct ext as [|c ext]; [congruence|]. cbn [wants_guess].
    unfold save_stream, OS.open_wb. cbn [open_fault env env' chunks stream_fault].
    destruct (fs _ !! ip) as [[old|]|]; try reflexivity;
      (destruct opf; [reflexivity|]);
      now rewrite (write_chunks_env env env'). }
  rewrite <- Hbody.
  destruct (try_body env url timeout folder safe ext ip w1) as [[[p|e] ip'] w2];
    reflexivity.
Qed.

Variable env : Env.

Lemma download_keeps_folder (url name folder : str) (timeout : Z)
    (w : World) (v : option str) :
  fst (download_image_stream host_ok env url name folder timeout w) = Ok v ->
  fs (snd (download_image_stream host_ok env url name folder timeout w)) !! folder
  = Some Dir.
Proof.
  rewrite download_unfold.
  destruct (prelude host_ok env url name folder w) as [[[[ext safe] ip]|e] w1] eqn:Hpre;
    [|discriminate].
  intros _.
  pose proof (prelude_ok _ _ _ _ _ _ _ _ _ _ Hpre) as (_ & _ & _ & Hmk & _).
  apply makedirs_post in Hmk.
  destruct (try_body env url timeout folder safe ext ip w1)
    as [[res ip'] w2] eqn:Hb.
  destruct (image_path_shape _ _ _ _ _ _ _ _ _ _ _ _ _ _ Hpre Hb)
    as (suffix & Hs & ->).
  destruct (component_clean name suffix Hs) as (Hc & Hne).
  assert (Hfolder : folder
                    <> PosixPath.join folder (safe_filename name ++ "."%char :: suffix)).
  { intros E. symmetry in E. revert E. now apply join_component_longer. }
  apply try_body_frame in Hb as (_ & Hf).
  destruct res as [p|e]; cbn [snd].
  - now rewrite Hf.
  - now rewrite handler_frame, Hf.
Qed.

(** X10: whenever the operation returns, with a path or with [None],
    the destination folder is a directory afterwards. *)
Theorem folder_exists_after_return (url name folder : str) (timeout : Z)
    (w : World) (v : option str) :
  fst (download_image_stream host_ok env url name folder timeout w) = Ok v ->
  fs (snd (download_image_stream host_ok env url name folder timeout w)) !! folder
  = Some Dir.
Proof. apply download_keeps_folder. Qed.


(** X11: after a download that succeeded for a URL with an extension,
    the same request is refused with the "already exists" error,
    whatever the network would answer, and changes nothing. *)
Theorem second_download_is_refused (url name folder : str) (timeout : Z)
    (w w' : World) (p ext : str) (env' : Env) (timeout' : Z) :
  download_image_stream host_ok env url name folder timeout w = (Ok (Some p), w') ->
  get_extension_from_url host_ok url = Ok ext ->
  ext <> [] ->
  download_image_stream host_ok env' url name folder timeout' w'
  = (Raise (FileExistsError ("File " ++ safe_filename name ++ " already exists")), w').
Proof.
  intros Hrun Hext Hne.
  assert (Hdir : fs w' !! folder = Some Dir).
  { pose proof (download_keeps_folder url name folder timeout w (Some p)) as H.
    rewrite Hrun in H. now apply H. }
  assert (Hfile : OS.path_exists w'
                    (PosixPath.join folder (safe_filename name ++ "." ++ ext)) = true).
  { rewrite download_unfold in Hrun.
    destruct (prelude host_ok env url name folder w)
      as [[[[ext0 safe] ip]|e] w1] eqn:Hpre; [|discriminate].
    pose proof (prelude_ok _ _ _ _ _ _ _ _ _ _ Hpre) as (Hext0 & -> & -> & _).
    rewrite Hext in Hext0. injection Hext0 as <-.
    destruct (try_body env url timeout folder (safe_filename name) ext _ w1)
      as [[[q|e] ip'] w2] eqn:Hb.
    - injection Hrun as <- <-.
      apply try_body_ok in Hb as (r & guess & _ & _ & Hg & -> & _ & Hfile).
      destruct ext as [|c ext]; [congruence|]. cbn [wants_guess] in Hg.
      injection Hg as <-. cbn [resolved_path] in Hfile.
      unfold OS.path_exists. rewrite Hfile. apply bool_decide_eq_true_2. eauto.
    - destruct (handler_spec env (safe_filename name) url e ip' w2) as (Hh & _).
      rewrite Hrun in Hh. discriminate. }
  rewrite download_unfold.
  now rewrite (prelude_target_exists host_ok env' url name folder w' ext).
Qed.

End DownloadComposition.

(* ================================================================== *)
(** ** The entry point *)
(* ================================================================== *)

Section EntryPoint.

Variable host_ok : str -> bool.
Variable env : Env.

Lemma main_unfold (url name : str) (w : World) :
  main host_ok env url name w
  = match download_image_stream host_ok env url name default_folder
            default_timeout (announce w) with
    | (Ok saved_path, w') =>
        OS.print ("Image saved at: " ++ format_saved_path saved_path) w'
    | (Raise e, w') => OS.print ("Error: " ++ exn_str e) w'
    end.
Proof.
  unfold main.
  replace (OS.print "Downloading image..."
             (OS.print "Enter image name: " (OS.print "Enter image URL: " w)))
    with (announce w); [reflexivity|].
  unfold announce, OS.print, banner. cbn [fs sent printed].
  now rewrite <- !app_assoc.
Qed.

(** What a run of the download adds to the console and to the log of
    requests. *)
Lemma download_console (url name folder : str) (timeout : Z) (w : World) :
  match download_image_stream host_ok env url name folder timeout w with
  | (Ok (Some p), w') =>
      printed w' = printed w
      /\ sent w' = sent w ++ [mkRequest url None true timeout]
  | (Ok None, w') =>
      (exists e, printed w'
                 = printed w ++ [failure_message (safe_filename name) url e])
      /\ sent w' = sent w ++ [mkRequest url None true timeout]
  | (Raise e, w') => printed w' = printed w /\ sent w' = sent w
  end.
Proof.
  rewrite download_unfold.
  destruct (prelude host_ok env url name folder w) as [[[[ext safe] ip]|e] w1] eqn:Hpre;
    pose proof (prelude_frame _ _ _ _ _ _ _ _ Hpre) as (Hs & Hp); [|auto].
  pose proof (prelude_ok _ _ _ _ _ _ _ _ _ _ Hpre) as (_ & -> & _).
  destruct (try_body env url timeout folder (safe_filename name) ext ip w1)
    as [[[p|e] ip'] w2] eqn:Hb;
    apply try_body_sent in Hb as (Hb1 & Hb2).
  - rewrite Hb1, Hb2, Hs, Hp. auto.
  - destruct (handler_spec env (safe_filename name) url e ip' w2) as (H1 & H2 & H3).
    destruct (handler env (safe_filename name) url e ip' w2) as [r w3].
    cbn [fst snd] in *. subst r. rewrite H2, H3, Hb1, Hb2, Hs, Hp. eauto.
Qed.

(** X14: when the download reports a failure by returning [None], the
    entry point prints the failure message and then, all the same,
    [Image saved at: None]. *)
Theorem main_reports_failure_as_saved (url name : str) (w : World) :
  fst (download_image_stream host_ok env url name default_folder default_timeout
         (announce w)) = Ok None ->
  exists e,
    printed (main host_ok env url name w)
    = printed w ++ banner
      ++ [failure_message (safe_filename name) url e; "Image saved at: None" : str].
Proof.
  intros H. rewrite main_unfold.
  pose proof (download_console url name default_folder default_timeout (announce w))
    as Hc.
  destruct (download_image_stream host_ok env url name default_folder
              default_timeout (announce w)) as [[[p|]|e] w'];
    try discriminate.
  destruct Hc as ((e & Hpr) & _). exists e.
  unfold OS.print. cbn [printed format_saved_path]. rewrite Hpr.
  unfold announce. cbn [printed]. now rewrite <- !app_assoc.
Qed.

(** X15: when the target already exists, the entry point prints the
    error of the refused download and nothing else changes: no request,
    no change on disk. *)
Theorem main_prints_refusal (url name : str) (w : World) (ext : str) :
  get_extension_from_url host_ok url = Ok ext ->
  fs w !! default_folder = Some Dir ->
  OS.path_exists w
    (PosixPath.join default_folder (safe_filename name ++ "." ++ ext)) = true ->
  main host_ok env url name w
  = mkWorld (fs w) (sent w)
      (printed w ++ banner
       ++ ["Error: File " ++ safe_filename name ++ " already exists"]).
Proof.
  intros Hext Hdir Hex. rewrite main_unfold, download_unfold.
  rewrite (prelude_target_exists host_ok env url name default_folder (announce w) ext)
    by assumption.
  unfold OS.print, announce. cbn [fs sent printed exn_str].
  now rewrite <- app_assoc.
Qed.

(** X16: when the download returns a path, the entry point prints it
    after [Image saved at: ] and prints nothing else after the
    banner. *)
Theorem main_confirms_saved_path (url name : str) (w w' : World) (p : str) :
  download_image_stream host_ok env url name default_folder default_timeout
    (announce w) = (Ok (Some p), w') ->
  printed (main host_ok env url name w)
  = printed w ++ banner ++ ["Image saved at: " ++ p].
Proof.
  intros H. rewrite main_unfold.
  pose proof (download_console url name default_folder default_timeout (announce w))
    as Hc.
  rewrite H in *. destruct Hc as (Hpr & _).
  unfold OS.print. cbn [printed format_saved_path]. rewrite Hpr.
  unfold announce. cbn [printed]. now rewrite <- app_assoc.
Qed.

Lemma startswith_app (p x : str) : PyStr.startswith p (p ++ x) = true.
Proof.
  induction p as [|c p IH]; [reflexivity|].
  cbn [app PyStr.startswith]. now rewrite Ascii.eqb_refl, IH.
Qed.

(** X17: whatever happens, the entry point issues at most one request
    and, after the banner and at most one failure message, ends the
    console output with one verdict line, [Image saved at: ...] or
    [Error: ...]. *)
Theorem main_console_shape (url name : str) (w : World) :
  exists middle verdict,
    printed (main host_ok env url name w)
    = printed w ++ banner ++ middle ++ [verdict]
    /\ (length middle <= 1)%nat
    /\ (PyStr.startswith "Image saved at: " verdict = true
        \/ PyStr.startswith "Error: " verdict = true)
    /\ (sent (main host_ok env url name w) = sent w
        \/ sent (main host_ok env url name w)
           = sent w ++ [mkRequest url None true default_timeout]).
Proof.
  rewrite main_unfold.
  pose proof (download_console url name default_folder default_timeout (announce w))
    as Hc.
  destruct (download_image_stream host_ok env url name default_folder
              default_timeout (announce w)) as [[[p|]|e] w'].
  - destruct Hc as (Hpr & Hs).
    exists [], ("Image saved at: " ++ p).
    unfold OS.print. cbn [printed sent format_saved_path length app].
    rewrite Hpr, Hs. unfold announce. cbn [printed sent].
    rewrite <- app_assoc. repeat split; [lia | | now right].
    left. apply (startswith_app "Image saved at: ").
  - destruct Hc as ((e & Hpr) & Hs).
    exists [failure_message (safe_filename name) url e],
           ("Image saved at: None" : str).
    unfold OS.print. cbn [printed sent format_saved_path length].
    rewrite Hpr, Hs. unfold announce. cbn [printed sent].
    rewrite <- !app_assoc. repeat split; [lia | now left | now right].
  - destruct Hc as (Hpr & Hs).
    exists [], ("Error: " ++ exn_str e).
    unfold OS.print. cbn [printed sent length app].
    rewrite Hpr, Hs. unfold announce. cbn [printed sent].
    rewrite <- app_assoc. repeat split; [lia | | now left].
    right. apply (startswith_app "Error: ").
Qed.

End EntryPoint.

(* ================================================================== *)
(** ** The further properties on concrete requests *)
(* ================================================================== *)

Section MoreRuns.
Import Scenario.


Lemma saved_path_example :
  exists comp,
    comp <> [] /\ ~ In "/"%char comp
    /\ (("images/pic.png" : str) = default_folder ++ comp
        \/ ("images/pic.png" : str) = default_folder ++ "/"%char :: comp).
Proof.
  apply (saved_path_is_one_component_below any_host (quiet png_response) pic_url
           "pic" default_folder default_timeout empty_world
           (snd (run (quiet png_response) pic_url "pic" empty_world))).
  vm_compute; reflexivity.
Defined.

Lemma request_failure_example :
  fst (run (mkEnv (Raise (Timeout "timed out")) None None None None)
         pic_jpg_url "pic" empty_world) = Ok None
  /\ fs (snd (run (mkEnv (Raise (Timeout "timed out")) None None None None)
                pic_jpg_url "pic" empty_world))
     = {[ default_folder := Dir ]}
  /\ printed (snd (run (mkEnv (Raise (Timeout "timed out")) None None None None)
                     pic_jpg_url "pic" empty_world))
     = printed empty_world
       ++ [failure_message "pic" pic_jpg_url (Timeout "timed out")].
Proof.
  assert (Hpre : prelude any_host (mkEnv (Raise (Timeout "timed out")) None None None None)
                   pic_jpg_url "pic" default_folder empty_world
                 = (Ok (".jpg" : str, "pic" : str, "images/pic..jpg" : str),
                    mkWorld {[ default_folder := Dir ]} [] []))
    by (vm_compute; reflexivity).
  exact (request_failure_leaves_disk any_host _ _ _ _ default_timeout _ _ _ _ _ _
           Hpre (or_introl eq_refl)).
Defined.

Lemma disk_prefix_example :
  exists rest,
    List.concat (chunks png_response) = [Byte.x01; Byte.x02] ++ rest
    /\ (Raise (OSError "write failed") = Ok tt -> rest = []).
Proof.
  apply (disk_holds_a_prefix_of_the_body
           (mkEnv (Ok png_response) None None (Some 1%nat) None)
           png_response "images/pic..jpg"
           (mkWorld {[ default_folder := Dir ]} [] [])
           (snd (save_stream (mkEnv (Ok png_response) None None (Some 1%nat) None)
                   png_response "images/pic..jpg"
                   (mkWorld {[ default_folder := Dir ]} [] [])))
           (Raise (OSError "write failed")));
    vm_compute; reflexivity.
Defined.

Lemma content_type_unused_example :
  download_image_stream any_host
    (mkEnv (Ok (mkResponse 200 None body None)) None None None None)
    pic_jpg_url "pic" default_folder default_timeout empty_world
  = download_image_stream any_host
      (mkEnv (Ok (mkResponse 200 (Some ("text/html" : str)) body None))
             None None None None)
      pic_jpg_url "pic" default_folder default_timeout empty_world.
Proof.
  apply (content_type_unused_with_extension any_host pic_jpg_url "pic"
           default_folder default_timeout empty_world ".jpg").
  - vm_compute; reflexivity.
  - discriminate.
Defined.

Lemma folder_exists_example :
  fs (snd (run (quiet broken_png_response) pic_jpg_url "pic" empty_world))
    !! default_folder = Some Dir.
Proof.
  apply (folder_exists_after_return any_host (quiet broken_png_response)
           pic_jpg_url "pic" default_folder default_timeout empty_world None).
  vm_compute; reflexivity.
Defined.


Lemma second_download_example :
  run (quiet untyped_response) pic_jpg_url "pic"
    (snd (run (quiet png_response) pic_jpg_url "pic" empty_world))
  = (Raise (FileExistsError ("File " ++ safe_filename "pic" ++ " already exists")),
     snd (run (quiet png_response) pic_jpg_url "pic" empty_world)).
Proof.
  apply (second_download_is_refused any_host (quiet png_response) pic_jpg_url "pic"
           default_folder default_timeout empty_world
           (snd (run (quiet png_response) pic_jpg_url "pic" empty_world))
           "images/pic..jpg" ".jpg" (quiet untyped_response) default_timeout).
  - vm_compute; reflexivity.
  - vm_compute; reflexivity.
  - discriminate.
Defined.

Lemma main_failure_example :
  exists e,
    printed (main any_host (quiet untyped_response) pic_url "pic" empty_world)
    = printed empty_world ++ banner
      ++ [failure_message (safe_filename "pic") pic_url e;
          "Image saved at: None" : str].
Proof.
  apply (main_reports_failure_as_saved any_host (quiet untyped_response)
           pic_url "pic" empty_world).
  vm_compute; reflexivity.
Defined.

Lemma main_refusal_example :
  main any_host (quiet png_response) pic_jpg_url "pic" taken_world
  = mkWorld (fs taken_world) (sent taken_world)
      (printed taken_world ++ banner
       ++ ["Error: File " ++ safe_filename "pic" ++ " already exists"]).
Proof.
  apply (main_prints_refusal any_host (quiet png_response) pic_jpg_url "pic"
           taken_world ".jpg"); vm_compute; reflexivity.
Defined.

Lemma main_saved_example :
  printed (main any_host (quiet png_response) pic_jpg_url "pic" empty_world)
  = printed empty_world ++ banner ++ ["Image saved at: " ++ "images/pic..jpg"].
Proof.
  apply (main_confirms_saved_path any_host (quiet png_response) pic_jpg_url "pic"
           empty_world
           (snd (download_image_stream any_host (quiet png_response) pic_jpg_url
                   "pic" default_folder default_timeout (announce empty_world)))).
  vm_compute; reflexivity.
Defined.

End MoreRuns.
